(** * bb-storage: circular backend, HTTP remote backend, ByteStream server
      and the BlobAccess-backed Content Addressable Storage

    A shallow embedding of the Go sources

    - [pkg/blobstore/circular] (circular_blob_access.go): [Get], [Put],
      [FindMissing] of [circularBlobAccess];
    - [pkg/blobstore/remote_blob_access.go]: [Get], [Put], [FindMissing] of
      [remoteBlobAccess];
    - [pkg/cas/byte_stream_server.go]: [parseResourceNameWrite] and the
      [byteStreamWriteServerChunkReader];
    - [pkg/cas] (blob_access_content_addressable_storage.go): [GetFile],
      [PutFile], [newSectionReadCloser].

    Integers of Go are [Z] with the wrap-around written out, Go strings are
    byte strings ([string]), [[]byte] is [list byte].  Methods that act on
    a collaborator (a store, the HTTP client, a directory) are functions in
    a state monad over the collaborator's state; every call on a
    collaborator is also appended to a history of calls, so that "this
    call is made, with these arguments, in this order" is a statement about
    that history.  Where a method releases its lock, or works in two
    passes, the steps that other goroutines or processes take in between
    are an argument of the method. *)

From Stdlib Require Import ZArith List String Ascii Bool Lia DecimalString.
From Stdlib.Strings Require Import Byte.
Import ListNotations.

Open Scope string_scope.
Open Scope list_scope.
Open Scope Z_scope.

(** ** Shared vocabulary *)

(** gRPC status codes ([google.golang.org/grpc/codes]). *)
Inductive Code : Type :=
| OK | Canceled | Unknown | InvalidArgument | DeadlineExceeded | NotFound
| AlreadyExists | PermissionDenied | ResourceExhausted | FailedPrecondition
| Aborted | OutOfRange | Unimplemented | Internal | Unavailable | DataLoss
| Unauthenticated.

(** Go [error] values: [status.Error]/[status.Errorf], [errors.New], and
    [io.EOF].  A nil error is [None : option error]. *)
Inductive error : Type :=
| StatusError (c : Code) (msg : string)
| ErrorsNew (msg : string)
| EOF.

(** A Go result pair [(value, error)] of which exactly one is meaningful. *)
Inductive Result (A : Type) : Type :=
| Ok (a : A)
| Err (e : error).
Arguments Ok {A} a.
Arguments Err {A} e.

(** [codes.Code] carried by an error, [None] when it is not a status. *)
Definition codeOf (e : error) : option Code :=
  match e with
  | StatusError c _ => Some c
  | _ => None
  end.

(** [util.Digest]: instance name, hex hash, size in bytes ([int64]). *)
Record Digest : Type := mkDigest {
  instance : string;
  hashString : string;
  sizeBytes : Z
}.

Definition Digest_eqb (a b : Digest) : bool :=
  String.eqb (instance a) (instance b)
  && String.eqb (hashString a) (hashString b)
  && (sizeBytes a =? sizeBytes b).

(** Two's complement wrap-around of [int64] arithmetic. *)
Definition MaxInt64 : Z := 2 ^ 63 - 1.
Definition wrap64 (z : Z) : Z := (z + 2 ^ 63) mod 2 ^ 64 - 2 ^ 63.

(** [fmt]'s [%d] verb. *)
Definition fmt_d (z : Z) : string := NilZero.string_of_int (Z.to_int z).

(** Length of a byte slice as a Go [int]. *)
Definition len {A : Type} (l : list A) : Z := Z.of_nat (List.length l).

(** [subseq l1 l2]: [l1] is [l2] with some elements left out, in the same
    order. *)
Inductive subseq {A : Type} : list A -> list A -> Prop :=
| subseq_nil : subseq [] []
| subseq_skip (x : A) (l1 l2 : list A) : subseq l1 l2 -> subseq l1 (x :: l2)
| subseq_keep (x : A) (l1 l2 : list A) :
    subseq l1 l2 -> subseq (x :: l1) (x :: l2).

(** ** A small state monad

    [M S A] is a computation over a state [S] (the collaborators and the
    trace) that returns an [A]. *)
Definition M (S A : Type) : Type := S -> A * S.

Definition ret {S A : Type} (a : A) : M S A := fun s => (a, s).

Definition bind {S A B : Type} (m : M S A) (k : A -> M S B) : M S B :=
  fun s => let (a, s') := m s in k a s'.

Declare Scope monad_scope.
Delimit Scope monad_scope with monad.
Notation "x <- m ;; k" := (bind m (fun x => k))
  (at level 61, m at next level, right associativity) : monad_scope.
Notation "' pat <- m ;; k" := (bind m (fun x => match x with pat => k end))
  (at level 61, pat pattern, m at next level, right associativity) : monad_scope.
Notation "m ;; k" := (bind m (fun _ => k))
  (at level 61, right associativity) : monad_scope.
Open Scope monad_scope.

(** ** Buffers ([pkg/blobstore/buffer])

    The buffer package is a collaborator of every backend.  A buffer is
    represented by the constructor call that made it; [R] is the type of
    the readers it is made from and [F] the type of repair functions. *)
Inductive RepairStrategy (F : Type) : Type :=
| Irreparable
| UserProvided
| Reparable (digest : Digest) (repairFunc : F).
Arguments Irreparable {F}.
Arguments UserProvided {F}.
Arguments Reparable {F} digest repairFunc.

(** Modelled from the spec: [blobstore.StorageType], which is not among
    the sources.  In the spec it is the capability that distinguishes the
    Content Addressable Storage from the Action Cache. *)
Inductive StorageType : Type := CASStorageType | ACStorageType.

Inductive Buffer (R F : Type) : Type :=
| NewBufferFromError (err : error)
| NewBufferFromReader (storageType : StorageType) (digest : Digest) (r : R)
    (repairStrategy : RepairStrategy F)
| NewCASBufferFromReader (digest : Digest) (r : R)
    (repairStrategy : RepairStrategy F)
| NewValidatedBufferFromByteSlice (data : list byte).
Arguments NewBufferFromError {R F} err.
Arguments NewBufferFromReader {R F} storageType digest r repairStrategy.
Arguments NewCASBufferFromReader {R F} digest r repairStrategy.
Arguments NewValidatedBufferFromByteSlice {R F} data.

(** [ioutil.NopCloser]. *)
Inductive NopCloser (R : Type) : Type := mkNopCloser (r : R).
Arguments mkNopCloser {R} r.

(** ** The ByteStream server ([pkg/cas/byte_stream_server.go]) *)
Module ByteStream.

(** *** [strings.FieldsFunc]

    Go ranges over the runes of the string.  The separator used here is
    ['/'], a one-byte code point that never occurs inside a multi-byte
    UTF-8 sequence, so ranging over bytes splits at the same places.
    [field] is [s[fromIndex:i]], the field being scanned. *)
Fixpoint FieldsFunc_from (f : ascii -> bool) (s : string)
    (field : string) (wasField : bool) : list string :=
  match s with
  | EmptyString => if wasField then [field] else []
  | String r s' =>
      if f r then
        if wasField then field :: FieldsFunc_from f s' "" false
        else FieldsFunc_from f s' "" false
      else FieldsFunc_from f s' (field ++ String r "")%string true
  end.

Definition FieldsFunc (s : string) (f : ascii -> bool) : list string :=
  FieldsFunc_from f s "" false.

(** *** [strconv.ParseInt(s, 10, 64)] *)
Inductive NumError : Type := ErrSyntax | ErrRange.

Definition maxUint64 : Z := 2 ^ 64 - 1.

Definition digitValue (c : ascii) : option Z :=
  let n := Z.of_nat (nat_of_ascii c) in
  if (48 <=? n) && (n <=? 57) then Some (n - 48) else None.

(** The digit loop of [strconv.ParseUint] for base 10 and 64 bits: [n] is
    the value read so far, [cutoff] is [maxUint64/10 + 1]. *)
Fixpoint ParseUint_loop (s : string) (n : Z) : Z * option NumError :=
  match s with
  | EmptyString => (n, None)
  | String c s' =>
      match digitValue c with
      | None => (0, Some ErrSyntax)
      | Some d =>
          let cutoff := maxUint64 / 10 + 1 in
          if cutoff <=? n then (maxUint64, Some ErrRange)
          else
            let n10 := (n * 10) mod 2 ^ 64 in
            let n1 := (n10 + d) mod 2 ^ 64 in
            if (n1 <? n10) || (maxUint64 <? n1) then (maxUint64, Some ErrRange)
            else ParseUint_loop s' n1
      end
  end.

Definition ParseUint (s : string) : Z * option NumError :=
  match s with
  | EmptyString => (0, Some ErrSyntax)
  | _ => ParseUint_loop s 0
  end.

Definition ParseInt (s : string) : Z * option NumError :=
  match s with
  | EmptyString => (0, Some ErrSyntax)
  | String c rest =>
      let '(neg, s1) :=
        if Ascii.eqb c "+" then (false, rest)
        else if Ascii.eqb c "-" then (true, rest)
        else (false, s) in
      let '(un, err) := ParseUint s1 in
      match err with
      | Some ErrSyntax => (0, Some ErrSyntax)
      | _ =>
          let cutoff := 2 ^ 63 in
          if negb neg && (cutoff <=? un) then (cutoff - 1, Some ErrRange)
          else if neg && (cutoff <? un) then (- cutoff, Some ErrRange)
          else
            let n := wrap64 un in
            (if neg then wrap64 (- n) else n, None)
      end
  end.

(** *** Decimal integers, as a specification

    A decimal integer is an optional sign followed by at least one decimal
    digit; its value is read by Horner's rule, without any bound. *)
Fixpoint decimalValue_from (s : string) (n : Z) : option Z :=
  match s with
  | EmptyString => Some n
  | String c s' =>
      match digitValue c with
      | None => None
      | Some d => decimalValue_from s' (n * 10 + d)
      end
  end.

Definition decimalValue (s : string) : option Z :=
  match s with
  | EmptyString => None
  | _ => decimalValue_from s 0
  end.

Definition decimalInteger (s : string) : option Z :=
  match s with
  | EmptyString => None
  | String c rest =>
      if Ascii.eqb c "+" then decimalValue rest
      else if Ascii.eqb c "-" then option_map Z.opp (decimalValue rest)
      else decimalValue s
  end.

(** A decimal integer that fits a signed 64-bit integer. *)
Definition decimalInt64 (s : string) : option Z :=
  match decimalInteger s with
  | Some n => if (- 2 ^ 63 <=? n) && (n <=? MaxInt64) then Some n else None
  | None => None
  end.

(** [remoteexecution.Digest], the wire form handed to [util.NewDigest]. *)
Record PartialDigest : Type := mkPartialDigest {
  Hash : string;
  SizeBytes : Z
}.

Section Server.

(** [util.NewDigest] is not part of the sources at hand; the parser is
    stated for any implementation of it. *)
Variable NewDigest : string -> PartialDigest -> Result Digest.

Definition invalidResourceName : error :=
  StatusError InvalidArgument "Invalid resource naming scheme".

(** [fields[l-5]] and [fields[l-3]] are only evaluated by Go when [l] is 5
    or 6 (short-circuit [||]); [nth] with a default gives the same value of
    the whole condition, which is already true when [l] is neither. *)
Definition parseResourceNameWrite (resourceName : string) : Result Digest :=
  let fields := FieldsFunc resourceName (fun r => Ascii.eqb r "/") in
  let l := List.length fields in
  if (negb (Nat.eqb l 5) && negb (Nat.eqb l 6))
     || negb (String.eqb (nth (l - 5) fields "") "uploads")
     || negb (String.eqb (nth (l - 3) fields "") "blobs")
  then Err invalidResourceName
  else
    let '(size, err) := ParseInt (nth (l - 1) fields "") in
    match err with
    | Some _ => Err invalidResourceName
    | None =>
        let instance := if Nat.eqb l 6 then nth 0 fields "" else "" in
        NewDigest instance
          {| Hash := nth (l - 2) fields ""; SizeBytes := size |}
    end.

(** The same parser, written from the shape of the names it is meant to
    accept: [uploads/<uuid>/blobs/<hash>/<size>] with an optional leading
    instance field, where [<size>] is a decimal integer of 64 bits.  The
    result is the instance, the hash and the size. *)
Definition writeResourceName (resourceName : string)
    : option (string * PartialDigest) :=
  match FieldsFunc resourceName (fun r => Ascii.eqb r "/") with
  | [uploads; _; blobs; hash; size] =>
      if String.eqb uploads "uploads" && String.eqb blobs "blobs" then
        option_map (fun n => ("", mkPartialDigest hash n)) (decimalInt64 size)
      else None
  | [inst; uploads; _; blobs; hash; size] =>
      if String.eqb uploads "uploads" && String.eqb blobs "blobs" then
        option_map (fun n => (inst, mkPartialDigest hash n)) (decimalInt64 size)
      else None
  | _ => None
  end.


(** *** The chunk reader of a Write stream *)

(** [bytestream.WriteRequest]. *)
Record WriteRequest : Type := mkWriteRequest {
  ResourceName : string;
  WriteOffset : Z;
  FinishWrite : bool;
  Data : list byte
}.

(** [bytestream.ByteStream_WriteServer] as [Recv] sees it: the requests the
    client has still to deliver, and the error that ends the stream
    ([io.EOF] when the client closes it). *)
Record WriteServer : Type := mkWriteServer {
  incoming : list WriteRequest;
  closing : error
}.

Definition Recv (stream : WriteServer) : Result WriteRequest * WriteServer :=
  match incoming stream with
  | request :: rest => (Ok request, mkWriteServer rest (closing stream))
  | [] => (Err (closing stream), stream)
  end.

Record byteStreamWriteServerChunkReader : Type := mkChunkReader {
  stream : WriteServer;
  writeOffset : Z;
  data : list byte;
  finishedWrite : bool
}.

Definition setRequest (request : WriteRequest)
    : M byteStreamWriteServerChunkReader (option error) :=
  fun r =>
    if finishedWrite r then
      (Some (StatusError InvalidArgument "Client closed stream twice"), r)
    else if negb (WriteOffset request =? writeOffset r) then
      (Some (StatusError InvalidArgument
               ("Attempted to write at offset " ++ fmt_d (WriteOffset request)
                ++ ", while " ++ fmt_d (writeOffset r) ++ " was expected")%string),
       r)
    else
      (None,
       mkChunkReader (stream r)
         (wrap64 (writeOffset r + len (Data request)))
         (Data request)
         (FinishWrite request)).

Definition isEOF (err : error) : bool :=
  match err with EOF => true | _ => false end.

Definition Read : M byteStreamWriteServerChunkReader (Result (list byte)) :=
  fun r =>
    if len (data r) =? 0 then
      (* Read next chunk if no data is present. *)
      let '(received, stream') := Recv (stream r) in
      let r := mkChunkReader stream' (writeOffset r) (data r) (finishedWrite r) in
      match received with
      | Err err =>
          if isEOF err && negb (finishedWrite r) then
            (Err (StatusError InvalidArgument
                    "Client closed stream without finishing write"), r)
          else (Err err, r)
      | Ok request =>
          match setRequest request r with
          | (Some err, r) => (Err err, r)
          | (None, r) =>
              (Ok (data r),
               mkChunkReader (stream r) (writeOffset r) [] (finishedWrite r))
          end
      end
    else
      (Ok (data r),
       mkChunkReader (stream r) (writeOffset r) [] (finishedWrite r)).

(** [bytestream.WriteResponse]. *)
Record WriteResponse : Type := mkWriteResponse { CommittedSize : Z }.

(** [blobAccess.Put] on the buffer made by
    [buffer.NewCASBufferFromChunkReader(digest, r, buffer.UserProvided)]
    consumes the chunk reader [r]; the blob access is a collaborator, so
    [Write] is stated for any such consumer.  [SendAndClose] is the
    stream's own. *)
Variable blobAccess_Put :
  Digest -> M byteStreamWriteServerChunkReader (option error).
Variable SendAndClose : WriteResponse -> option error.

Definition Write (stream : WriteServer) : option error :=
  let '(received, stream) := Recv stream in
  match received with
  | Err err => Some err
  | Ok request =>
      match parseResourceNameWrite (ResourceName request) with
      | Err err => Some err
      | Ok digest =>
          let r := mkChunkReader stream 0 [] false in
          match setRequest request r with
          | (Some err, _) => Some err
          | (None, r) =>
              match blobAccess_Put digest r with
              | (Some err, _) => Some err
              | (None, _) =>
                  SendAndClose (mkWriteResponse (sizeBytes digest))
              end
          end
      end
  end.

End Server.

(** The states the chunk reader of [Write stream0] goes through: the one
    [Write] hands to the blob access once the first request is accepted,
    and those that follow when the consumer calls [Read] and gets a chunk. *)
Inductive reading (stream0 : WriteServer)
    : byteStreamWriteServerChunkReader -> Prop :=
| reading_first (request : WriteRequest) (stream1 : WriteServer)
    (r : byteStreamWriteServerChunkReader) :
    Recv stream0 = (Ok request, stream1) ->
    setRequest request (mkChunkReader stream1 0 [] false) = (None, r) ->
    reading stream0 r
| reading_next (r r' : byteStreamWriteServerChunkReader) (chunk : list byte) :
    reading stream0 r ->
    Read r = (Ok chunk, r') ->
    reading stream0 r'.

(** The requests the stream has delivered when the reader is in state
    [r]. *)
Definition received (stream0 : WriteServer)
    (r : byteStreamWriteServerChunkReader) : list WriteRequest :=
  firstn (List.length (incoming stream0) - List.length (incoming (stream r)))
    (incoming stream0).

(** Sum of the data lengths of the requests received so far. *)
Definition totalLength (received : list WriteRequest) : Z :=
  fold_right (fun request n => len (Data request) + n) 0 received.

(** A consumer that reads chunks until the reader fails, at most [fuel]
    times; [io.EOF] ends the blob without an error. *)
Fixpoint drain (fuel : nat)
    : M byteStreamWriteServerChunkReader (option error) :=
  match fuel with
  | O => ret None
  | S fuel =>
      chunk <- Read ;;
      match chunk with
      | Err EOF => ret None
      | Err err => ret (Some err)
      | Ok _ => drain fuel
      end
  end.

(** What [ParseInt] does once the sign has been picked off. *)
Definition ParseInt_signed (neg : bool) (s1 : string) : Z * option NumError :=
  let '(un, err) := ParseUint s1 in
  match err with
  | Some ErrSyntax => (0, Some ErrSyntax)
  | _ =>
      let cutoff := 2 ^ 63 in
      if negb neg && (cutoff <=? un) then (cutoff - 1, Some ErrRange)
      else if neg && (cutoff <? un) then (- cutoff, Some ErrRange)
      else
        let n := wrap64 un in
        (if neg then wrap64 (- n) else n, None)
  end.

Definition inInt64 (n : Z) : bool := (- 2 ^ 63 <=? n) && (n <=? MaxInt64).

Definition signed (neg : bool) (v : Z) : Z := if neg then - v else v.

(** Every field returned by [FieldsFunc] is non-empty and free of
    separators. *)
Fixpoint stringForall (p : ascii -> bool) (s : string) : bool :=
  match s with
  | EmptyString => true
  | String c s' => p c && stringForall p s'
  end.

Definition properField (f : ascii -> bool) (x : string) : Prop :=
  x <> "" /\ stringForall (fun c => negb (f c)) x = true.

Definition isHexDigit (c : ascii) : bool :=
  let n := nat_of_ascii c in
  ((48 <=? n) && (n <=? 57) || (97 <=? n) && (n <=? 102))%nat.

(** Modelled from the spec: [util.NewDigest], which is not among the
    sources.  The spec's data model has a digest carry a hex-encoded hash
    whose length determines the hash function (MD5, SHA-1, SHA-256, SHA-384,
    SHA-512) and the exact size of the blob, and has a malformed digest
    reported as InvalidArgument. *)
Definition NewDigest_model (inst : string) (pd : PartialDigest)
    : Result Digest :=
  let n := String.length (Hash pd) in
  if negb (existsb (Nat.eqb n) [32; 40; 64; 96; 128]%nat) then
    Err (StatusError InvalidArgument "Unknown digest hash length")
  else if negb (stringForall isHexDigit (Hash pd)) then
    Err (StatusError InvalidArgument "Non-hexadecimal character in digest hash")
  else if SizeBytes pd <? 0 then
    Err (StatusError InvalidArgument "Invalid digest size")
  else Ok (mkDigest inst (Hash pd) (SizeBytes pd)).

(** The names the parser is said to accept, read literally: 5 or 6 fields,
    ["uploads"] fifth from last, ["blobs"] third from last, and any decimal
    integer as the last field. *)
Definition namedAsWrite (resourceName : string) : bool :=
  match FieldsFunc resourceName (fun r => Ascii.eqb r "/") with
  | [uploads; _; blobs; _; size]
  | [_; uploads; _; blobs; _; size] =>
      String.eqb uploads "uploads" && String.eqb blobs "blobs"
      && match decimalInteger size with Some _ => true | None => false end
  | _ => false
  end.

(** What the reader's fields record about the requests received. *)
Record tracks (stream0 : WriteServer) (got : list WriteRequest)
    (r : byteStreamWriteServerChunkReader) : Prop := {
  tracks_incoming : incoming stream0 = got ++ incoming (stream r);
  tracks_closing : closing (stream r) = closing stream0;
  tracks_offset : writeOffset r = wrap64 (totalLength got);
  tracks_finished : finishedWrite r = existsb FinishWrite got
}.

(** [strings.Join(fields, "/")]. *)
Fixpoint joinSlash (fields : list string) : string :=
  match fields with
  | [] => ""
  | [field] => field
  | field :: fields => (field ++ "/" ++ joinSlash fields)%string
  end.

Definition isSlash (r : ascii) : bool := Ascii.eqb r "/".

(** A consumer that reads the chunk reader until it fails, at most [fuel]
    times, and keeps the bytes: the bytes read and the error that ended
    the reading, if the end was reached. *)
Fixpoint readAll (fuel : nat)
    : M byteStreamWriteServerChunkReader (list byte * option error) :=
  match fuel with
  | O => ret ([], None)
  | S fuel =>
      chunk <- Read ;;
      match chunk with
      | Err err => ret ([], Some err)
      | Ok bytes =>
          '(rest, err) <- readAll fuel ;;
          ret (bytes ++ rest, err)
      end
  end.

(** Requests that follow each other as the chunk reader expects, from a
    state in which [offset] bytes were received and a finishing request
    was seen or not ([finished]): each is at the offset where the one
    before ended, and the last one, and no other, finishes the write. *)
Fixpoint contiguous (offset : Z) (finished : bool)
    (requests : list WriteRequest) : bool :=
  match requests with
  | [] => finished
  | request :: requests =>
      negb finished
      && (WriteOffset request =? offset)
      && contiguous (wrap64 (offset + len (Data request)))
           (FinishWrite request) requests
  end.

(** *** The Read method of the server *)

(** [bytestream.ReadRequest]. *)
Record ReadRequest : Type := mkReadRequest {
  ReadResourceName : string;
  ReadOffset : Z;
  ReadLimit : Z
}.

(** [buffer.ChunkReader] as [Read] sees it: the chunks it has still to
    return, and the error that ends it ([io.EOF] at the end of the
    blob). *)
Record ChunkReader : Type := mkChunks {
  chunks : list (list byte);
  ending : error
}.

(** Calls made on the stream of responses and on the chunk reader. *)
Inductive ReadEvent : Type :=
| Sent (data : list byte) (err : option error)
| ReaderClosed.

Section ReadServer.

(** [O] is the state of the stream of responses, [out.Send] its method.
    [util.NewDigestFromBytestreamPath] and the chunk reader that
    [s.blobAccess.Get(ctx, digest).ToChunkReader(offset, chunkSize)]
    returns are declared outside the sources at hand. *)
Context {O : Type}.
Variable NewDigestFromBytestreamPath : string -> Result Digest.
Variable blobAccess_Get_ToChunkReader : Digest -> Z -> Z -> ChunkReader.
Variable out_Send : list byte -> O -> option error * O.
Variable readChunkSize : Z.

Record ReadServer : Type := mkReadServer {
  out : O;
  sent : list ReadEvent
}.

Definition Send (data : list byte) : M ReadServer (option error) :=
  fun s =>
    let '(err, o) := out_Send data (out s) in
    (err, mkReadServer o (sent s ++ [Sent data err])).

Definition partialDownload : error :=
  StatusError Unimplemented
    "This service does not support downloading partial files".

(** The loop of [byteStreamServer.Read]: [pending] and [readErr] are what
    the calls of [r.Read()] return from here on. *)
Fixpoint Server_Read_loop (pending : list (list byte)) (readErr : error)
    : M ReadServer (option error) :=
  match pending with
  | [] => if isEOF readErr then ret None else ret (Some readErr)
  | readBuf :: pending =>
      writeErr <- Send readBuf ;;
      match writeErr with
      | Some writeErr => ret (Some writeErr)
      | None => Server_Read_loop pending readErr
      end
  end.

(** [byteStreamServer.Read]; the deferred [r.Close()] runs on every return
    after the chunk reader was made. *)
Definition Server_Read (req : ReadRequest) : M ReadServer (option error) :=
  if negb (ReadLimit req =? 0) then ret (Some partialDownload)
  else
    match NewDigestFromBytestreamPath (ReadResourceName req) with
    | Err err => ret (Some err)
    | Ok digest =>
        let r :=
          blobAccess_Get_ToChunkReader digest (ReadOffset req) readChunkSize in
        err <- Server_Read_loop (chunks r) (ending r) ;;
        fun s => (err, mkReadServer (out s) (sent s ++ [ReaderClosed]))
    end.

(** [byteStreamServer.QueryWriteStatus]. *)
Definition QueryWriteStatus : Result unit :=
  Err (StatusError Unimplemented
         "This service does not support querying write status").

End ReadServer.

(** The responses sent for chunks whose [Send] succeeds. *)
Definition sentAll (cs : list (list byte)) : list ReadEvent :=
  map (fun c => Sent c None) cs.

(** A stream of responses that takes two messages and then breaks, and a
    chunk reader of three chunks. *)
Definition sampleSend (data : list byte) (n : nat) : option error * nat :=
  if Nat.ltb n 2 then (None, S n)
  else (Some (StatusError Unavailable "broken pipe"), n).

Definition sampleReader (digest : Digest) (offset chunkSize : Z)
    : ChunkReader :=
  mkChunks [[x68]; [x65]; [x6c]]%byte EOF.

(** Sample streams. *)
Definition sampleName : string :=
  "uploads/7e3c/blobs/d41d8cd98f00b204e9800998ecf8427e/5".

Definition sampleMisordered : WriteServer :=
  mkWriteServer
    [mkWriteRequest sampleName 0 false [x68; x65]%byte;
     mkWriteRequest "" 7 true [x6c; x6c; x6f]%byte]
    EOF.

Definition sampleComplete : WriteServer :=
  mkWriteServer
    [mkWriteRequest sampleName 0 false [x68; x65]%byte;
     mkWriteRequest "" 2 true [x6c; x6c; x6f]%byte]
    EOF.

Definition sampleUnfinished : WriteServer :=
  mkWriteServer
    [mkWriteRequest sampleName 0 false [x68; x65]%byte;
     mkWriteRequest "" 2 false [x6c; x6c; x6f]%byte]
    EOF.

Definition sampleLate : WriteServer :=
  mkWriteServer [mkWriteRequest sampleName 3 true [x6c; x6f]%byte] EOF.

End ByteStream.

(** ** The circular backend ([pkg/blobstore/circular]) *)
Module Circular.

(** [Cursors]: the read and write cursors of the data file ([uint64]). *)
Record Cursors : Type := mkCursors {
  Read : Z;
  Write : Z
}.

(** The three store interfaces.  A method is a function of the store's
    state that returns its results and the store's next state. *)
Class OffsetStore (OS : Type) : Type := {
  offsetStore_Get :
    Digest -> Cursors -> OS -> (Z * Z * bool * option error) * OS;
  offsetStore_Put :
    Digest -> Z -> Z -> Cursors -> OS -> option error * OS
}.

(** [Buf] is the type of the buffers whose reader [Put] consumes, [R] the
    type of the readers [Get] returns. *)
Class DataStore (DS Buf R : Type) : Type := {
  dataStore_Put : Buf -> Z -> DS -> option error * DS;
  dataStore_Get : Z -> Z -> DS -> R
}.

Class StateStore (SS : Type) : Type := {
  stateStore_GetCursors : SS -> Cursors;
  stateStore_Allocate : Z -> SS -> (Z * option error) * SS;
  stateStore_Invalidate : Z -> Z -> SS -> option error * SS
}.

(** Calls made on the lock, on the stores and on the buffer handed to
    [Put], with their arguments and results. *)
Inductive Event : Type :=
| Lock
| Unlock
| GetCursors (cursors : Cursors)
| OffsetGet (digest : Digest) (cursors : Cursors)
    (offset length : Z) (ok : bool) (err : option error)
| OffsetPut (digest : Digest) (offset length : Z) (cursors : Cursors)
    (err : option error)
| Allocate (sizeBytes offset : Z) (err : option error)
| Invalidate (offset sizeBytes : Z) (err : option error)
| DataPut (offset : Z) (err : option error)
| DataGet (offset size : Z)
| Discard
| Close.

Section Backend.

Context {OS DS SS Buf R : Type}.
Context `{OffsetStore OS} `{DataStore DS Buf R} `{StateStore SS}.

(** [Cursors.Contains] and [Buffer.GetSizeBytes] are declared outside the
    sources at hand; the backend is stated for any implementation. *)
Variable Contains : Cursors -> Z -> Z -> bool.
Variable GetSizeBytes : Buf -> Z * option error.

(** [circularBlobAccess].  The mutex [lock] holds no data; [calls] is the
    history of the calls made so far. *)
Record circularBlobAccess : Type := mkCircularBlobAccess {
  dataStore : DS;
  storageType : StorageType;
  offsetStore : OS;
  stateStore : SS;
  calls : list Event
}.

Definition withOffsetStore (ba : circularBlobAccess) (os : OS)
    : circularBlobAccess :=
  mkCircularBlobAccess (dataStore ba) (storageType ba) os (stateStore ba)
    (calls ba).

Definition withDataStore (ba : circularBlobAccess) (ds : DS)
    : circularBlobAccess :=
  mkCircularBlobAccess ds (storageType ba) (offsetStore ba) (stateStore ba)
    (calls ba).

Definition withStateStore (ba : circularBlobAccess) (ss : SS)
    : circularBlobAccess :=
  mkCircularBlobAccess (dataStore ba) (storageType ba) (offsetStore ba) ss
    (calls ba).

Definition record (e : Event) (ba : circularBlobAccess) : circularBlobAccess :=
  mkCircularBlobAccess (dataStore ba) (storageType ba) (offsetStore ba)
    (stateStore ba) (calls ba ++ [e]).

Definition emit (e : Event) : M circularBlobAccess unit :=
  fun ba => (tt, record e ba).

(** [ba.lock.Lock()], [ba.lock.Unlock()]. *)
Definition lock_Lock : M circularBlobAccess unit := emit Lock.
Definition lock_Unlock : M circularBlobAccess unit := emit Unlock.

(** [ba.stateStore.GetCursors()]. *)
Definition ba_stateStore_GetCursors : M circularBlobAccess Cursors :=
  fun ba =>
    let cursors := stateStore_GetCursors (stateStore ba) in
    (cursors, record (GetCursors cursors) ba).

(** [ba.stateStore.Allocate(sizeBytes)]. *)
Definition ba_stateStore_Allocate (sizeBytes : Z)
    : M circularBlobAccess (Z * option error) :=
  fun ba =>
    let '((offset, err), ss) := stateStore_Allocate sizeBytes (stateStore ba) in
    ((offset, err), record (Allocate sizeBytes offset err) (withStateStore ba ss)).

(** [ba.stateStore.Invalidate(offset, sizeBytes)]. *)
Definition ba_stateStore_Invalidate (offset sizeBytes : Z)
    : M circularBlobAccess (option error) :=
  fun ba =>
    let '(err, ss) := stateStore_Invalidate offset sizeBytes (stateStore ba) in
    (err, record (Invalidate offset sizeBytes err) (withStateStore ba ss)).

(** [ba.offsetStore.Get(digest, cursors)]. *)
Definition ba_offsetStore_Get (digest : Digest) (cursors : Cursors)
    : M circularBlobAccess (Z * Z * bool * option error) :=
  fun ba =>
    let '((offset, length, ok, err), os) :=
      offsetStore_Get digest cursors (offsetStore ba) in
    ((offset, length, ok, err),
     record (OffsetGet digest cursors offset length ok err)
       (withOffsetStore ba os)).

(** [ba.offsetStore.Put(digest, offset, length, cursors)]. *)
Definition ba_offsetStore_Put (digest : Digest) (offset length : Z)
    (cursors : Cursors) : M circularBlobAccess (option error) :=
  fun ba =>
    let '(err, os) :=
      offsetStore_Put digest offset length cursors (offsetStore ba) in
    (err, record (OffsetPut digest offset length cursors err)
            (withOffsetStore ba os)).

(** [ba.dataStore.Put(r, offset)], where [r] is [b.ToReader()]. *)
Definition ba_dataStore_Put (b : Buf) (offset : Z)
    : M circularBlobAccess (option error) :=
  fun ba =>
    let '(err, ds) := dataStore_Put b offset (dataStore ba) in
    (err, record (DataPut offset err) (withDataStore ba ds)).

(** [ba.dataStore.Get(offset, size)]. *)
Definition ba_dataStore_Get (offset size : Z) : M circularBlobAccess R :=
  fun ba =>
    (dataStore_Get offset size (dataStore ba), record (DataGet offset size) ba).

(** What other goroutines do to the backend while this one does not hold
    the lock. *)
Definition concurrently (env : circularBlobAccess -> circularBlobAccess)
    : M circularBlobAccess unit :=
  fun ba => (tt, env ba).

(** A repair function is a closure over the backend. *)
Definition RepairFunc : Type := M circularBlobAccess (option error).

Definition blobNotFound : error := StatusError NotFound "Blob not found".

Definition Get (digest : Digest)
    : M circularBlobAccess (Buffer (NopCloser R) RepairFunc) :=
  lock_Lock ;;
  cursors <- ba_stateStore_GetCursors ;;
  '(offset, length, ok, err) <- ba_offsetStore_Get digest cursors ;;
  lock_Unlock ;;
  match err with
  | Some err => ret (NewBufferFromError err)
  | None =>
      if ok then
        r <- ba_dataStore_Get offset length ;;
        fun ba =>
          (NewBufferFromReader (storageType ba) digest (mkNopCloser r)
             (Reparable digest
                (lock_Lock ;;
                 err <- ba_stateStore_Invalidate offset length ;;
                 lock_Unlock ;;
                 ret err)),
           ba)
      else ret (NewBufferFromError blobNotFound)
  end.

Definition staleData : error :=
  ErrorsNew "Data became stale before write completed".

(** [env1] and [env2] are the steps of other goroutines in the window in
    which [Put] does not hold the lock: before and after the bytes are
    written to the data store.  The deferred [r.Close()] runs on every
    return after [b.ToReader()]. *)
Definition Put (env1 env2 : circularBlobAccess -> circularBlobAccess)
    (digest : Digest) (b : Buf) : M circularBlobAccess (option error) :=
  let '(sizeBytes, err) := GetSizeBytes b in
  match err with
  | Some err => emit Discard ;; ret (Some err)
  | None =>
      (* Allocate space in the data store. *)
      lock_Lock ;;
      '(offset, err) <- ba_stateStore_Allocate sizeBytes ;;
      lock_Unlock ;;
      match err with
      | Some err => emit Close ;; ret (Some err)
      | None =>
          concurrently env1 ;;
          (* Write the data to storage. *)
          err <- ba_dataStore_Put b offset ;;
          match err with
          | Some err => emit Close ;; ret (Some err)
          | None =>
              concurrently env2 ;;
              lock_Lock ;;
              cursors <- ba_stateStore_GetCursors ;;
              err <- (if Contains cursors offset sizeBytes then
                        ba_offsetStore_Put digest offset sizeBytes cursors
                      else ret (Some staleData)) ;;
              lock_Unlock ;;
              emit Close ;;
              ret err
          end
      end
  end.

(** The loop of [FindMissing]; [missingDigests] is the slice built so
    far. *)
Fixpoint FindMissing_loop (cursors : Cursors) (digests : list Digest)
    (missingDigests : list Digest)
    : M circularBlobAccess (Result (list Digest)) :=
  match digests with
  | [] => ret (Ok missingDigests)
  | digest :: digests =>
      '(_, _, ok, err) <- ba_offsetStore_Get digest cursors ;;
      match err with
      | Some err => ret (Err err)
      | None =>
          if negb ok then
            FindMissing_loop cursors digests (missingDigests ++ [digest])
          else FindMissing_loop cursors digests missingDigests
      end
  end.

(** The deferred [ba.lock.Unlock()] runs on both returns. *)
Definition FindMissing (digests : list Digest)
    : M circularBlobAccess (Result (list Digest)) :=
  lock_Lock ;;
  cursors <- ba_stateStore_GetCursors ;;
  result <- FindMissing_loop cursors digests [] ;;
  lock_Unlock ;;
  ret result.

(** The results of one offset store lookup. *)
Definition lookupOk (result : Z * Z * bool * option error) : bool :=
  snd (fst result).
Definition lookupErr (result : Z * Z * bool * option error) : option error :=
  snd result.

(** The lookup [FindMissing] and [Get] make for [digest] in the state
    [ba]. *)
Definition lookup (ba : circularBlobAccess) (digest : Digest)
    : Z * Z * bool * option error :=
  fst (offsetStore_Get digest (stateStore_GetCursors (stateStore ba))
         (offsetStore ba)).

(** The entry that a lookup leaves in the history. *)
Definition probe (ba : circularBlobAccess) (digest : Digest) : Event :=
  let '(offset, length, ok, err) := lookup ba digest in
  OffsetGet digest (stateStore_GetCursors (stateStore ba)) offset length ok err.

(** The backend after the calls [es] were made. *)
Definition recordAll (es : list Event) (ba : circularBlobAccess)
    : circularBlobAccess :=
  mkCircularBlobAccess (dataStore ba) (storageType ba) (offsetStore ba)
    (stateStore ba) (calls ba ++ es).

(** The digests [FindMissing] looks up, in order: all of them, or those up
    to the first lookup that fails, with that error. *)
Fixpoint scan (ba : circularBlobAccess) (digests : list Digest)
    : list Digest * option error :=
  match digests with
  | [] => ([], None)
  | digest :: digests =>
      match lookupErr (lookup ba digest) with
      | Some err => ([digest], Some err)
      | None => let '(probed, err) := scan ba digests in (digest :: probed, err)
      end
  end.

(** The state in which [Put] takes the lock for the second time, when it
    gets there: the size of the buffer is known, the allocation returned
    at [offset], the bytes were written, and the other goroutines took
    their steps. *)
Definition beforeCommit (env1 env2 : circularBlobAccess -> circularBlobAccess)
    (b : Buf) (ba : circularBlobAccess) : option (Z * Z * circularBlobAccess) :=
  match GetSizeBytes b with
  | (_, Some _) => None
  | (sizeBytes, None) =>
      match (lock_Lock ;; a <- ba_stateStore_Allocate sizeBytes ;;
             lock_Unlock ;; ret a) ba with
      | ((_, Some _), _) => None
      | ((offset, None), ba1) =>
          match ba_dataStore_Put b offset (env1 ba1) with
          | (Some _, _) => None
          | (None, ba2) => Some (sizeBytes, offset, env2 ba2)
          end
      end
  end.

(** Lookups that leave the offset store as it is. *)
Definition readOnlyLookups : Prop :=
  forall (digest : Digest) (cursors : Cursors) (os : OS),
    snd (offsetStore_Get digest cursors os) = os.

Definition reportedAbsent (ba : circularBlobAccess) (digest : Digest) : bool :=
  negb (lookupOk (lookup ba digest)).

(** An offset store in which a lookup finds what was just put, under the
    cursors it was put with, while these contain the region. *)
Definition putGetLaw : Prop :=
  forall (digest : Digest) (offset length : Z) (cursors : Cursors) (os : OS),
    fst (offsetStore_Put digest offset length cursors os) = None ->
    Contains cursors offset length = true ->
    fst (offsetStore_Get digest cursors
           (snd (offsetStore_Put digest offset length cursors os)))
    = (offset, length, true, None).

End Backend.

Arguments circularBlobAccess : clear implicits.

(** *** The locking discipline

    The offset store and the state store are the fields protected by the
    lock; the data store is used without it. *)
Definition needsLock (e : Event) : bool :=
  match e with
  | GetCursors _ | OffsetGet _ _ _ _ _ _ | OffsetPut _ _ _ _ _
  | Allocate _ _ _ | Invalidate _ _ _ => true
  | _ => false
  end.

Definition isDataCall (e : Event) : bool :=
  match e with
  | DataPut _ _ | DataGet _ _ => true
  | _ => false
  end.

(** [lockAfter held es] follows the mutex through the calls [es], from a
    state in which this goroutine holds it ([held]) or not.  It is [None]
    when the calls lock a mutex that is held, unlock one that is not, use a
    protected store without the lock or the data store with it; otherwise
    it tells whether the mutex is held at the end. *)
Fixpoint lockAfter (held : bool) (es : list Event) : option bool :=
  match es with
  | [] => Some held
  | Lock :: es => if held then None else lockAfter true es
  | Unlock :: es => if held then lockAfter false es else None
  | e :: es =>
      if needsLock e && negb held then None
      else if isDataCall e && held then None
      else lockAfter held es
  end.

Definition isLookup (e : Event) : bool :=
  match e with
  | OffsetGet _ _ _ _ _ _ => true
  | _ => false
  end.

(** *** A model of the three stores *)

(** Modelled from the spec: [Cursors.Contains], which is not among the
    sources.  In the spec a region [[off, off+len)] is live iff
    [read <= off] and [off+len <= write]. *)
Definition Contains_model (c : Cursors) (offset length : Z) : bool :=
  (Read c <=? offset) && (offset + length <=? Write c).

(** Modelled from the spec: the state file behind [StateStore], which is
    not among the sources.  It holds the cursors of a data file of
    [capacity] bytes. *)
Record StateFile : Type := mkStateFile {
  cursors : Cursors;
  capacity : Z
}.

(** Modelled from the spec: the implementation of [StateStore], which is
    not among the sources.  In the spec [Allocate(len)] advances [write] by
    [len] and [read] as needed to keep [write - read <= C], and
    [Invalidate(offset, len)] advances [read] past the region. *)
#[export] Instance StateStore_model : StateStore StateFile := {
  stateStore_GetCursors ss := cursors ss;
  stateStore_Allocate sizeBytes ss :=
    let offset := Write (cursors ss) in
    let write := offset + sizeBytes in
    let read := Z.max (Read (cursors ss)) (write - capacity ss) in
    ((offset, None), mkStateFile (mkCursors read write) (capacity ss));
  stateStore_Invalidate offset sizeBytes ss :=
    let read := Z.max (Read (cursors ss)) (offset + sizeBytes) in
    (None, mkStateFile (mkCursors (Z.min read (Write (cursors ss)))
                          (Write (cursors ss)))
             (capacity ss))
}.

(** Modelled from the spec: the offset file behind [OffsetStore], which is
    not among the sources; a map from digests to [(offset, length)]. *)
Definition OffsetFile : Type := list (Digest * (Z * Z)).

Fixpoint OffsetFile_find (digest : Digest) (os : OffsetFile)
    : option (Z * Z) :=
  match os with
  | [] => None
  | (d, location) :: os =>
      if Digest_eqb d digest then Some location else OffsetFile_find digest os
  end.

(** Modelled from the spec: the implementation of [OffsetStore], which is
    not among the sources.  In the spec a lookup uses the current cursors
    to reject stale entries. *)
#[export] Instance OffsetStore_model : OffsetStore OffsetFile := {
  offsetStore_Get digest c os :=
    match OffsetFile_find digest os with
    | Some (offset, length) =>
        if Contains_model c offset length then ((offset, length, true, None), os)
        else ((0, 0, false, None), os)
    | None => ((0, 0, false, None), os)
    end;
  offsetStore_Put digest offset length c os :=
    (None, (digest, (offset, length)) :: os)
}.

(** Modelled from the spec: the data file behind [DataStore], which is not
    among the sources.  It keeps what was written at which offset. *)
Definition DataFile : Type := list (Z * list byte).

Fixpoint DataFile_find (offset : Z) (ds : DataFile) : list byte :=
  match ds with
  | [] => []
  | (o, bytes) :: ds => if o =? offset then bytes else DataFile_find offset ds
  end.

(** Modelled from the spec: the implementation of [DataStore], which is
    not among the sources.  A buffer is the bytes it holds, a reader the
    bytes it yields. *)
#[export] Instance DataStore_model : DataStore DataFile (list byte) (list byte) := {
  dataStore_Put b offset ds := (None, (offset, b) :: ds);
  dataStore_Get offset size ds := firstn (Z.to_nat size) (DataFile_find offset ds)
}.

(** Modelled from the spec: [Buffer.GetSizeBytes], which is not among the
    sources; the size of a buffer is the number of bytes it holds. *)
Definition GetSizeBytes_model (b : list byte) : Z * option error :=
  (len b, None).

(** A buffer whose size cannot be had. *)
Definition GetSizeBytes_unknown (b : list byte) : Z * option error :=
  (0, Some (StatusError Internal "size unknown")).

Definition Backend_model : Type :=
  circularBlobAccess OffsetFile DataFile StateFile.

(** An empty backend of 8 bytes. *)
Definition emptyBackend : Backend_model :=
  mkCircularBlobAccess [] CASStorageType [] (mkStateFile (mkCursors 0 0) 8) [].

Definition sampleDigest : Digest :=
  mkDigest "" "5d41402abc4b2a76b9719d911017c592" 5.
Definition sampleBlob : list byte := [x68; x65; x6c; x6c; x6f]%byte.
Definition otherDigest : Digest :=
  mkDigest "" "fc5e038d38a57032085441e7fe7010b0" 6.
Definition otherBlob : list byte := [x68; x65; x6c; x6c; x6f; x21]%byte.

(** Another goroutine that puts [otherBlob] in one go. *)
Definition otherPut (ba : Backend_model) : Backend_model :=
  snd (Put Contains_model GetSizeBytes_model (fun ba => ba) (fun ba => ba)
         otherDigest otherBlob ba).

Definition quiet (ba : Backend_model) : Backend_model := ba.

(** What [otherPut] does to the stores, without its calls. *)
Definition otherPutStores (ba : Backend_model) : Backend_model :=
  mkCircularBlobAccess (dataStore (otherPut ba)) (storageType (otherPut ba))
    (offsetStore (otherPut ba)) (stateStore (otherPut ba)) (calls ba).

(** The backend once [sampleBlob] was put without contention, and the
    backend in which a [Put] of [sampleBlob] that raced with [otherPut]
    takes the lock for the second time. *)
Definition storedBackend : Backend_model :=
  Eval vm_compute in
    snd (Put Contains_model GetSizeBytes_model quiet quiet
           sampleDigest sampleBlob emptyBackend).

Definition uncontendedBackend : Backend_model :=
  Eval vm_compute in
    match beforeCommit GetSizeBytes_model quiet quiet sampleBlob emptyBackend
    with
    | Some (_, _, ba) => ba
    | None => emptyBackend
    end.

Definition contendedBackend : Backend_model :=
  Eval vm_compute in
    match beforeCommit GetSizeBytes_model otherPut quiet sampleBlob emptyBackend
    with
    | Some (_, _, ba) => ba
    | None => emptyBackend
    end.

End Circular.

(** ** The HTTP remote backend ([pkg/blobstore/remote_blob_access.go]) *)
Module Remote.

Inductive Method : Type := MethodGet | MethodHead | MethodPut.

(** [http.Request] with a body of type [Body], [http.Response] with a body
    of type [RBody]. *)
Record Request (Body : Type) : Type := mkRequest {
  RequestMethod : Method;
  URL : string;
  RequestBody : option Body;
  ContentLength : Z
}.
Arguments mkRequest {Body} _ _ _ _.
Arguments RequestMethod {Body} _.
Arguments URL {Body} _.
Arguments RequestBody {Body} _.
Arguments ContentLength {Body} _.

Record Response (RBody : Type) : Type := mkResponse {
  StatusCode : Z;
  Body : RBody
}.
Arguments mkResponse {RBody} _ _.
Arguments StatusCode {RBody} _.
Arguments Body {RBody} _.

Definition StatusOK : Z := 200.
Definition StatusNotFound : Z := 404.

(** [http.DefaultClient] together with the server behind it: [client_Do]
    sends a request and returns the response or the transport error. *)
Class HTTPClient (C Buf RBody : Type) : Type := {
  client_Do : Request Buf -> C -> Result (Response RBody) * C
}.

(** Calls made on the HTTP client, on response bodies and on the buffer
    handed to [Put]. *)
Inductive Event (Buf RBody : Type) : Type :=
| Do (req : Request Buf) (resp : Result (Response RBody))
| BodyClose (body : RBody)
| Discard
| Close.
Arguments Do {Buf RBody} req resp.
Arguments BodyClose {Buf RBody} body.
Arguments Discard {Buf RBody}.
Arguments Close {Buf RBody}.

Section Backend.

Context {C Buf RBody F : Type}.
Context `{HTTPClient C Buf RBody}.

(** [url.Parse] (through [http.NewRequest]), [http.StatusText] and
    [Buffer.GetSizeBytes] are taken as they come. *)
Variable url_Parse : string -> option error.
Variable http_StatusText : Z -> string.
Variable GetSizeBytes : Buf -> Z * option error.

(** [remoteBlobAccess], with the HTTP client it talks through and the
    history of the calls made so far. *)
Record remoteBlobAccess : Type := mkRemoteBlobAccess {
  address : string;
  prefix : string;
  storageType : StorageType;
  client : C;
  calls : list (Event Buf RBody)
}.

Definition record (e : Event Buf RBody) (ba : remoteBlobAccess)
    : remoteBlobAccess :=
  mkRemoteBlobAccess (address ba) (prefix ba) (storageType ba) (client ba)
    (calls ba ++ [e]).

Definition emit (e : Event Buf RBody) : M remoteBlobAccess unit :=
  fun ba => (tt, record e ba).

(** [fmt.Sprintf("%s/%s/%s", a, b, c)]. *)
Definition Sprintf_url (a b c : string) : string :=
  (a ++ "/" ++ b ++ "/" ++ c)%string.

Definition convertHTTPUnexpectedStatus (resp : Response RBody) : error :=
  StatusError Unknown
    ("Unexpected status code from remote cache: " ++ fmt_d (StatusCode resp)
     ++ " - " ++ http_StatusText (StatusCode resp))%string.

(** [http.NewRequest]: the content length of a request made from a plain
    reader is left at 0. *)
Definition http_NewRequest (method : Method) (url : string)
    (body : option Buf) : Result (Request Buf) :=
  match url_Parse url with
  | Some err => Err err
  | None => Ok (mkRequest method url body 0)
  end.

(** [ctxhttp.Do(ctx, http.DefaultClient, req)]. *)
Definition ctxhttp_Do (req : Request Buf)
    : M remoteBlobAccess (Result (Response RBody)) :=
  fun ba =>
    let '(resp, c) := client_Do req (client ba) in
    (resp,
     record (Do req resp)
       (mkRemoteBlobAccess (address ba) (prefix ba) (storageType ba) c
          (calls ba))).

(** [ctxhttp.Get] and [ctxhttp.Head]: a request without a body. *)
Definition ctxhttp_Get (url : string)
    : M remoteBlobAccess (Result (Response RBody)) :=
  match http_NewRequest MethodGet url None with
  | Err err => ret (Err err)
  | Ok req => ctxhttp_Do req
  end.

Definition ctxhttp_Head (url : string)
    : M remoteBlobAccess (Result (Response RBody)) :=
  match http_NewRequest MethodHead url None with
  | Err err => ret (Err err)
  | Ok req => ctxhttp_Do req
  end.

Definition Get (digest : Digest) : M remoteBlobAccess (Buffer RBody F) :=
  fun ba =>
    let url := Sprintf_url (address ba) (prefix ba) (hashString digest) in
    (resp <- ctxhttp_Get url ;;
     match resp with
     | Err err => ret (NewBufferFromError err)
     | Ok resp =>
         if StatusCode resp =? StatusNotFound then
           emit (BodyClose (Body resp)) ;;
           ret (NewBufferFromError (StatusError NotFound url))
         else if StatusCode resp =? StatusOK then
           ret (NewBufferFromReader (storageType ba) digest (Body resp)
                  Irreparable)
         else
           emit (BodyClose (Body resp)) ;;
           ret (NewBufferFromError (convertHTTPUnexpectedStatus resp))
     end) ba.

(** The body of the request is [b.ToReader()]. *)
Definition Put (digest : Digest) (b : Buf) : M remoteBlobAccess (option error) :=
  fun ba =>
    let '(sizeBytes, err) := GetSizeBytes b in
    match err with
    | Some err => (emit Discard ;; ret (Some err)) ba
    | None =>
        let url := Sprintf_url (address ba) (prefix ba) (hashString digest) in
        match http_NewRequest MethodPut url (Some b) with
        | Err err => (emit Close ;; ret (Some err)) ba
        | Ok req =>
            let req :=
              mkRequest (RequestMethod req) (URL req) (RequestBody req)
                sizeBytes in
            (resp <- ctxhttp_Do req ;;
             match resp with
             | Err err => ret (Some err)
             | Ok _ => ret None
             end) ba
        end
    end.

(** The loop of [FindMissing]; [missing] is the slice built so far. *)
Fixpoint FindMissing_loop (digests : list Digest) (missing : list Digest)
    : M remoteBlobAccess (Result (list Digest)) :=
  match digests with
  | [] => ret (Ok missing)
  | digest :: digests =>
      fun ba =>
        let url := Sprintf_url (address ba) (prefix ba) (hashString digest) in
        (resp <- ctxhttp_Head url ;;
         match resp with
         | Err err => ret (Err err)
         | Ok resp =>
             if StatusCode resp =? StatusNotFound then
               FindMissing_loop digests (missing ++ [digest])
             else if StatusCode resp =? StatusOK then
               FindMissing_loop digests missing
             else ret (Err (convertHTTPUnexpectedStatus resp))
         end) ba
  end.

Definition FindMissing (digests : list Digest)
    : M remoteBlobAccess (Result (list Digest)) :=
  FindMissing_loop digests [].

(** The address of a blob, and the requests made for it. *)
Definition blobURL (ba : remoteBlobAccess) (digest : Digest) : string :=
  Sprintf_url (address ba) (prefix ba) (hashString digest).

Definition headRequest (ba : remoteBlobAccess) (digest : Digest)
    : Request Buf :=
  mkRequest MethodHead (blobURL ba digest) None 0.

(** The answer to the HEAD request for [digest] in the state [ba]. *)
Definition head (ba : remoteBlobAccess) (digest : Digest)
    : Result (Response RBody) :=
  fst (client_Do (headRequest ba digest) (client ba)).

(** HEAD requests that leave the client and the server as they are. *)
Definition safeHeads : Prop :=
  forall (url : string) (c : C),
    snd (client_Do (mkRequest MethodHead url None 0) c) = c.

(** What a HEAD probe tells [FindMissing] about a digest. *)
Inductive Verdict : Type :=
| Present
| Missing
| Failed (err : error).

Definition verdict (ba : remoteBlobAccess) (digest : Digest) : Verdict :=
  match url_Parse (blobURL ba digest) with
  | Some err => Failed err
  | None =>
      match head ba digest with
      | Err err => Failed err
      | Ok resp =>
          if StatusCode resp =? StatusNotFound then Missing
          else if StatusCode resp =? StatusOK then Present
          else Failed (convertHTTPUnexpectedStatus resp)
      end
  end.

Definition isMissing (v : Verdict) : bool :=
  match v with Missing => true | _ => false end.

Definition failure (v : Verdict) : option error :=
  match v with Failed err => Some err | _ => None end.

(** The digests [FindMissing] probes, in order: all of them, or those up
    to the first probe that fails, with its error. *)
Fixpoint scan (ba : remoteBlobAccess) (digests : list Digest)
    : list Digest * option error :=
  match digests with
  | [] => ([], None)
  | digest :: digests =>
      match failure (verdict ba digest) with
      | Some err => ([digest], Some err)
      | None => let '(probed, err) := scan ba digests in (digest :: probed, err)
      end
  end.

(** The entry a probe leaves in the history: none when the URL does not
    parse. *)
Definition probe (ba : remoteBlobAccess) (digest : Digest)
    : list (Event Buf RBody) :=
  match url_Parse (blobURL ba digest) with
  | Some _ => []
  | None => [Do (headRequest ba digest) (head ba digest)]
  end.

(** A HEAD probe that was answered 200 or 404. *)
Definition answered (ba : remoteBlobAccess) (d : Digest) : Prop :=
  url_Parse (blobURL ba d) = None
  /\ exists resp,
      head ba d = Ok resp
      /\ (StatusCode resp = StatusNotFound \/ StatusCode resp = StatusOK).

Definition recordAll (es : list (Event Buf RBody)) (ba : remoteBlobAccess)
    : remoteBlobAccess :=
  mkRemoteBlobAccess (address ba) (prefix ba) (storageType ba) (client ba)
    (calls ba ++ es).

End Backend.

Arguments remoteBlobAccess : clear implicits.

(** *** A model of the remote cache *)

(** Modelled from the spec: the server of the HTTP caching protocol, which
    is not part of the repository.  It holds blobs by URL and may be
    read-only. *)
Record Cache : Type := mkCache {
  blobs : list (string * list byte);
  readOnly : bool
}.

Fixpoint Cache_find (url : string) (bs : list (string * list byte))
    : option (list byte) :=
  match bs with
  | [] => None
  | (u, blob) :: bs => if String.eqb u url then Some blob else Cache_find url bs
  end.

(** Modelled from the spec: the HTTP client and the server behind it,
    which are not part of the repository.  In the spec a blob lives at
    [<address>/<prefix>/<hex_hash>], 200 means present and 404 absent; a
    read-only cache answers 403 to PUT. *)
#[export] Instance HTTPClient_model : HTTPClient Cache (list byte) (list byte) := {
  client_Do req c :=
    match RequestMethod req with
    | MethodGet =>
        match Cache_find (URL req) (blobs c) with
        | Some blob => (Ok (mkResponse 200 blob), c)
        | None => (Ok (mkResponse 404 []), c)
        end
    | MethodHead =>
        match Cache_find (URL req) (blobs c) with
        | Some _ => (Ok (mkResponse 200 []), c)
        | None => (Ok (mkResponse 404 []), c)
        end
    | MethodPut =>
        if readOnly c then (Ok (mkResponse 403 []), c)
        else
          match RequestBody req with
          | Some blob =>
              (Ok (mkResponse 200 []),
               mkCache ((URL req, blob) :: blobs c) (readOnly c))
          | None => (Ok (mkResponse 400 []), c)
          end
    end
}.

(** Modelled from the spec: [url.Parse] of the Go library, which the spec
    leaves open; only the empty URL is refused. *)
Definition url_Parse_model (url : string) : option error :=
  match url with
  | EmptyString => Some (ErrorsNew "parse: empty url")
  | _ => None
  end.

(** Modelled from the spec: [http.StatusText] of the Go library, for the
    status codes used below. *)
Definition http_StatusText_model (code : Z) : string :=
  if code =? 403 then "Forbidden"
  else if code =? 500 then "Internal Server Error"
  else "".

(** Modelled from the spec: [Buffer.GetSizeBytes], which is not among the
    sources; the size of a buffer is the number of bytes it holds. *)
Definition GetSizeBytes_model (b : list byte) : Z * option error :=
  (len b, None).

Definition Backend_model : Type :=
  remoteBlobAccess Cache (list byte) (list byte).

Definition sampleDigest : Digest :=
  mkDigest "" "5d41402abc4b2a76b9719d911017c592" 5.
Definition sampleBlob : list byte := [x68; x65; x6c; x6c; x6f]%byte.
Definition otherDigest : Digest :=
  mkDigest "" "fc5e038d38a57032085441e7fe7010b0" 6.

Definition sampleURL : string :=
  "http://cache:8080/cas/5d41402abc4b2a76b9719d911017c592".

Definition emptyBackend : Backend_model :=
  mkRemoteBlobAccess "http://cache:8080" "cas" CASStorageType
    (mkCache [] false) [].

Definition storedBackend : Backend_model :=
  mkRemoteBlobAccess "http://cache:8080" "cas" CASStorageType
    (mkCache [(sampleURL, sampleBlob)] false) [].

Definition readOnlyBackend : Backend_model :=
  mkRemoteBlobAccess "http://cache:8080" "cas" CASStorageType
    (mkCache [] true) [].

End Remote.

(** ** Content Addressable Storage on top of a BlobAccess ([pkg/cas]) *)
Module CAS.

(** [filesystem.CreationMode]. *)
Inductive CreationMode : Type :=
| CreateExcl (mode : Z).

(** [filesystem.Directory] and the files opened through it.  [D] is the
    state of the file system, [W] the type of files opened for appending,
    [FR] the type of files opened for reading.  [directory_contains] tells
    whether the directory has an entry of that name; [file_contents] is
    what reading the file from its start to its end yields. *)
Class Directory (D W FR : Type) : Type := {
  directory_OpenAppend : string -> CreationMode -> D -> Result W * D;
  directory_OpenRead : string -> D -> Result FR * D;
  directory_Remove : string -> D -> option error * D;
  directory_contains : D -> string -> bool;
  writer_Close : W -> D -> option error * D;
  file_Close : FR -> D -> option error * D;
  file_contents : FR -> D -> Result (list byte)
}.

(** [io.SectionReader]: reads [r] from [off] up to [limit]. *)
Record SectionReader (FR : Type) : Type := mkSectionReader {
  sr_r : FR;
  sr_off : Z;
  sr_limit : Z
}.
Arguments mkSectionReader {FR} _ _ _.
Arguments sr_r {FR} _.
Arguments sr_off {FR} _.
Arguments sr_limit {FR} _.

Definition io_NewSectionReader {FR : Type} (r : FR) (off n : Z)
    : SectionReader FR :=
  mkSectionReader r off (wrap64 (off + n)).

(** The anonymous struct of [newSectionReadCloser]. *)
Record SectionReadCloser (FR : Type) : Type := mkSectionReadCloser {
  SectionReader_of : SectionReader FR;
  Closer : FR
}.
Arguments mkSectionReadCloser {FR} _ _.
Arguments SectionReader_of {FR} _.
Arguments Closer {FR} _.

Definition newSectionReadCloser {FR : Type} (r : FR) (off n : Z)
    : SectionReadCloser FR :=
  mkSectionReadCloser (io_NewSectionReader r off n) r.

(** The first [n] elements of a list, and the list without them, for [n]
    an [int64]. *)
Fixpoint take {A : Type} (n : Z) (l : list A) : list A :=
  match l with
  | [] => []
  | x :: l => if n <=? 0 then [] else x :: take (n - 1) l
  end.

Fixpoint drop {A : Type} (n : Z) (l : list A) : list A :=
  match l with
  | [] => []
  | x :: l' => if n <=? 0 then l else drop (n - 1) l'
  end.

(** What reading a section reader to its end yields on a file that holds
    [content]. *)
Definition SectionReader_bytes {FR : Type} (s : SectionReader FR)
    (content : list byte) : list byte :=
  take (sr_limit s - sr_off s) (drop (sr_off s) content).

(** [blobstore.BlobAccess]: [Get] returns a buffer of type [GBuf]; [Put]
    takes a buffer made from a section of a file, which it reads from the
    file system. *)
Class BlobAccess (B GBuf FR F D : Type) : Type := {
  blobAccess_Get : Digest -> B -> GBuf * B;
  blobAccess_Put :
    Digest -> Buffer (SectionReadCloser FR) F -> D -> B -> option error * B
}.

(** Calls made on the directory, its files and the blob access. *)
Inductive Event (FR F : Type) : Type :=
| OpenAppend (name : string) (creationMode : CreationMode)
| OpenRead (name : string)
| Remove (name : string) (err : option error)
| WriterClose
| FileClose
| BlobGet (digest : Digest)
| IntoWriter (err : option error)
| BlobPut (digest : Digest) (b : Buffer (SectionReadCloser FR) F)
    (err : option error).
Arguments OpenAppend {FR F} name creationMode.
Arguments OpenRead {FR F} name.
Arguments Remove {FR F} name err.
Arguments WriterClose {FR F}.
Arguments FileClose {FR F}.
Arguments BlobGet {FR F} digest.
Arguments IntoWriter {FR F} err.
Arguments BlobPut {FR F} digest b err.

Section Storage.

Context {D W FR B GBuf F : Type}.
Context `{Directory D W FR} `{BlobAccess B GBuf FR F D}.

(** [Buffer.IntoWriter] writes the buffer into a file opened for
    appending; [DigestGenerator] hashes what is written to it.  Both are
    declared outside the sources at hand. *)
Variable Buffer_IntoWriter : GBuf -> W -> D -> option error * D.
Variable DigestGenerator_Sum : Digest -> list byte -> Digest.

(** The file system, the [blobAccessContentAddressableStorage] (its blob
    access) and the history of calls. *)
Record World : Type := mkWorld {
  directory : D;
  blobAccess : B;
  calls : list (Event FR F)
}.

Definition record (e : Event FR F) (s : World) : World :=
  mkWorld (directory s) (blobAccess s) (calls s ++ [e]).

Definition emit (e : Event FR F) : M World unit := fun s => (tt, record e s).

Definition onDirectory {A : Type} (f : D -> A * D) (e : A -> Event FR F)
    : M World A :=
  fun s =>
    let '(a, d) := f (directory s) in
    (a, record (e a) (mkWorld d (blobAccess s) (calls s))).

Definition cas_blobAccess_Get (digest : Digest) : M World GBuf :=
  fun s =>
    let '(b, ba) := blobAccess_Get digest (blobAccess s) in
    (b, record (BlobGet digest) (mkWorld (directory s) ba (calls s))).

Definition cas_blobAccess_Put (digest : Digest)
    (b : Buffer (SectionReadCloser FR) F) : M World (option error) :=
  fun s =>
    let '(err, ba) := blobAccess_Put digest b (directory s) (blobAccess s) in
    (err, record (BlobPut digest b err) (mkWorld (directory s) ba (calls s))).

(** What other processes do to the file system and the blob access. *)
Definition concurrently (env : World -> World) : M World unit :=
  fun s => (tt, env s).

(** The deferred [w.Close()] runs on both returns after the file was
    opened. *)
Definition GetFile (digest : Digest) (name : string) (isExecutable : bool)
    : M World (option error) :=
  let mode := if isExecutable then 365 (* 0555 *) else 292 (* 0444 *) in
  w <- onDirectory (directory_OpenAppend name (CreateExcl mode))
         (fun _ => OpenAppend name (CreateExcl mode)) ;;
  match w with
  | Err err => ret (Some err)
  | Ok w =>
      b <- cas_blobAccess_Get digest ;;
      err <- onDirectory (Buffer_IntoWriter b w) IntoWriter ;;
      match err with
      | Some err =>
          (* Ensure no traces are left behind upon failure. *)
          onDirectory (directory_Remove name) (Remove name) ;;
          onDirectory (writer_Close w) (fun _ => WriterClose) ;;
          ret (Some err)
      | None =>
          onDirectory (writer_Close w) (fun _ => WriterClose) ;;
          ret None
      end
  end.

(** [io.Copy(digestGenerator, io.NewSectionReader(file, 0, math.MaxInt64))]:
    the bytes handed to the digest generator, whose number is the
    [sizeBytes] that [io.Copy] returns. *)
Definition io_Copy_section (file : FR) : M World (Result (list byte)) :=
  fun s =>
    match file_contents file (directory s) with
    | Err err => (Err err, s)
    | Ok content =>
        (Ok (SectionReader_bytes (io_NewSectionReader file 0 MaxInt64) content),
         s)
    end.

(** [env] is what other processes do between the pass that computes the
    digest and the upload. *)
Definition PutFile (env : World -> World) (name : string)
    (parentDigest : Digest) : M World (Result Digest) :=
  file <- onDirectory (directory_OpenRead name) (fun _ => OpenRead name) ;;
  match file with
  | Err err => ret (Err err)
  | Ok file =>
      (* Walk through the file to compute the digest. *)
      copied <- io_Copy_section file ;;
      match copied with
      | Err err =>
          onDirectory (file_Close file) (fun _ => FileClose) ;;
          ret (Err err)
      | Ok data =>
          let sizeBytes := len data in
          let digest := DigestGenerator_Sum parentDigest data in
          concurrently env ;;
          (* Rewind and store it. *)
          err <- cas_blobAccess_Put digest
                   (NewCASBufferFromReader digest
                      (newSectionReadCloser file 0 sizeBytes) UserProvided) ;;
          match err with
          | Some err => ret (Err err)
          | None => ret (Ok digest)
          end
      end
  end.

(** The state in which [GetFile] has opened the file [w] and the blob was
    streamed into it, with the error of the streaming. *)
Definition afterStreaming (digest : Digest) (name : string)
    (isExecutable : bool) (s : World) : option (W * option error * World) :=
  let mode := if isExecutable then 365 else 292 in
  match onDirectory (directory_OpenAppend name (CreateExcl mode))
          (fun _ => OpenAppend name (CreateExcl mode)) s with
  | (Err _, _) => None
  | (Ok w, s) =>
      let '(b, s) := cas_blobAccess_Get digest s in
      let '(err, s) := onDirectory (Buffer_IntoWriter b w) IntoWriter s in
      Some (w, err, s)
  end.

(** What is asked of a directory: [Remove] leaves no entry of that name,
    and closing a file changes no entry. *)
Definition removeRemoves : Prop :=
  forall (name : string) (d : D),
    directory_contains (snd (directory_Remove name d)) name = false.

Definition closeKeepsEntries : Prop :=
  forall (w : W) (d : D) (name : string),
    directory_contains (snd (writer_Close w d)) name = directory_contains d name.

(** The state in which [PutFile] has opened [file] and hashed [data], the
    bytes of its first pass. *)
Definition afterDigest (name : string) (s : World)
    : option (FR * list byte * World) :=
  match onDirectory (directory_OpenRead name) (fun _ => OpenRead name) s with
  | (Err _, _) => None
  | (Ok file, s) =>
      match io_Copy_section file s with
      | (Err _, _) => None
      | (Ok data, s) => Some (file, data, s)
      end
  end.

(** What the reader of a buffer made by [NewCASBufferFromReader] yields
    when it is read to its end in the file system [d]. *)
Definition uploaded (b : Buffer (SectionReadCloser FR) F) (d : D)
    : Result (list byte) :=
  match b with
  | NewCASBufferFromReader _ r _ =>
      match file_contents (sr_r (SectionReader_of r)) d with
      | Err err => Err err
      | Ok content => Ok (SectionReader_bytes (SectionReader_of r) content)
      end
  | NewBufferFromReader _ _ r _ =>
      match file_contents (sr_r (SectionReader_of r)) d with
      | Err err => Err err
      | Ok content => Ok (SectionReader_bytes (SectionReader_of r) content)
      end
  | NewValidatedBufferFromByteSlice data => Ok data
  | NewBufferFromError err => Err err
  end.

(** [Remove] is not among the calls [es]. *)
Definition noRemove (es : list (Event FR F)) : bool :=
  forallb (fun e => match e with Remove _ _ => false | _ => true end) es.


(** *** Messages and logs *)

(** [DigestGenerator.Write], [Buffer.ToByteSlice] and the field
    [maximumMessageSizeBytes] of the storage. *)
Variable DigestGenerator_Write : Digest -> list byte -> option error.
Variable Buffer_ToByteSlice : GBuf -> Z -> Result (list byte).
Variable maximumMessageSizeBytes : Z.

Definition getMessage {Msg : Type}
    (proto_Unmarshal : list byte -> Result Msg) (digest : Digest)
    : M World (Result Msg) :=
  b <- cas_blobAccess_Get digest ;;
  match Buffer_ToByteSlice b maximumMessageSizeBytes with
  | Err err => ret (Err err)
  | Ok data => ret (proto_Unmarshal data)
  end.

Definition putBlob (data : list byte) (parentDigest : Digest)
    : M World (Result Digest) :=
  (* Compute new digest of data. *)
  match DigestGenerator_Write parentDigest data with
  | Some err => ret (Err err)
  | None =>
      let digest := DigestGenerator_Sum parentDigest data in
      err <- cas_blobAccess_Put digest (NewValidatedBufferFromByteSlice data) ;;
      match err with
      | Some err => ret (Err err)
      | None => ret (Ok digest)
      end
  end.

Definition putMessage {Msg : Type}
    (proto_Marshal : Msg -> Result (list byte)) (message : Msg)
    (parentDigest : Digest) : M World (Result Digest) :=
  match proto_Marshal message with
  | Err err => ret (Err err)
  | Ok data => putBlob data parentDigest
  end.

Definition PutLog (log : list byte) (parentDigest : Digest)
    : M World (Result Digest) :=
  putBlob log parentDigest.

(** The messages of the remote execution protocol, with [proto.Marshal]
    and [proto.Unmarshal] for each. *)
Section Messages.

Context {Action UncachedActionResult Command DirectoryMessage Tree : Type}.
Variable Unmarshal_Action : list byte -> Result Action.
Variable Unmarshal_UncachedActionResult :
  list byte -> Result UncachedActionResult.
Variable Marshal_UncachedActionResult :
  UncachedActionResult -> Result (list byte).
Variable Unmarshal_Command : list byte -> Result Command.
Variable Unmarshal_Directory : list byte -> Result DirectoryMessage.
Variable Unmarshal_Tree : list byte -> Result Tree.
Variable Marshal_Tree : Tree -> Result (list byte).

Definition GetAction (digest : Digest) : M World (Result Action) :=
  getMessage Unmarshal_Action digest.

Definition GetUncachedActionResult (digest : Digest)
    : M World (Result UncachedActionResult) :=
  getMessage Unmarshal_UncachedActionResult digest.

Definition GetCommand (digest : Digest) : M World (Result Command) :=
  getMessage Unmarshal_Command digest.

Definition GetDirectory (digest : Digest) : M World (Result DirectoryMessage) :=
  getMessage Unmarshal_Directory digest.

Definition GetTree (digest : Digest) : M World (Result Tree) :=
  getMessage Unmarshal_Tree digest.

Definition PutTree (tree : Tree) (parentDigest : Digest)
    : M World (Result Digest) :=
  putMessage Marshal_Tree tree parentDigest.

Definition PutUncachedActionResult
    (uncachedActionResult : UncachedActionResult) (parentDigest : Digest)
    : M World (Result Digest) :=
  putMessage Marshal_UncachedActionResult uncachedActionResult parentDigest.

End Messages.

(** A blob access that gives back, as a byte slice, the bytes of a byte
    slice it accepted under the same digest, when they fit [max] bytes. *)
Definition storesByteSlices : Prop :=
  forall (digest : Digest) (data : list byte) (d : D) (bs : B),
    fst (blobAccess_Put digest (NewValidatedBufferFromByteSlice data) d bs)
    = None ->
    len data <= maximumMessageSizeBytes ->
    Buffer_ToByteSlice
      (fst (blobAccess_Get digest
              (snd (blobAccess_Put digest
                      (NewValidatedBufferFromByteSlice data) d bs))))
      maximumMessageSizeBytes
    = Ok data.

End Storage.

Arguments World : clear implicits.

(** *** A model of the directory and of the blob access *)

(** Modelled from the spec: the file system behind [filesystem.Directory],
    which is not among the sources.  A directory maps names to the mode and
    the bytes of a file. *)
Definition Files : Type := list (string * (Z * list byte)).

Fixpoint Files_find (name : string) (d : Files) : option (Z * list byte) :=
  match d with
  | [] => None
  | (n, file) :: d => if String.eqb n name then Some file else Files_find name d
  end.

Fixpoint Files_remove (name : string) (d : Files) : Files :=
  match d with
  | [] => []
  | (n, file) :: d =>
      if String.eqb n name then Files_remove name d
      else (n, file) :: Files_remove name d
  end.

Fixpoint Files_append (name : string) (bytes : list byte) (d : Files) : Files :=
  match d with
  | [] => []
  | (n, (mode, content)) :: d =>
      if String.eqb n name then (n, (mode, content ++ bytes)) :: d
      else (n, (mode, content)) :: Files_append name bytes d
  end.

Definition exists_ (name : string) (d : Files) : bool :=
  match Files_find name d with Some _ => true | None => false end.

(** Modelled from the spec: the implementation of [filesystem.Directory],
    which is not among the sources.  Creating a file that exists fails;
    removing or reading a file that does not exist fails. *)
#[export] Instance Directory_model : Directory Files string string := {
  directory_OpenAppend name creationMode d :=
    match creationMode with
    | CreateExcl mode =>
        if exists_ name d then (Err (ErrorsNew "file exists"), d)
        else (Ok name, (name, (mode, [])) :: d)
    end;
  directory_OpenRead name d :=
    if exists_ name d then (Ok name, d)
    else (Err (ErrorsNew "no such file or directory"), d);
  directory_Remove name d :=
    if exists_ name d then (None, Files_remove name d)
    else (Some (ErrorsNew "no such file or directory"), d);
  directory_contains d name := exists_ name d;
  writer_Close w d := (None, d);
  file_Close r d := (None, d);
  file_contents r d :=
    match Files_find r d with
    | Some (_, content) => Ok content
    | None => Err (ErrorsNew "no such file or directory")
    end
}.

(** Modelled from the spec: a buffer returned by [blobAccess.Get], from
    the buffer package, which is not among the sources: the bytes it
    delivers and the error it ends with. *)
Definition Fetched : Type := (list byte * option error)%type.

(** Modelled from the spec: [Buffer.IntoWriter], which is not among the
    sources; it appends the bytes of the buffer to the file and returns
    the error of the buffer. *)

Definition IntoWriter_model (b : Fetched) (w : string) (d : Files)
    : option error * Files :=
  (snd b, Files_append w (fst b) d).

(** Modelled from the spec: the store behind [blobstore.BlobAccess],
    which is not among the sources. *)
Definition Blobs : Type := list (Digest * list byte).

Fixpoint Blobs_find (digest : Digest) (bs : Blobs) : option (list byte) :=
  match bs with
  | [] => None
  | (d, blob) :: bs =>
      if Digest_eqb d digest then Some blob else Blobs_find digest bs
  end.

(** Modelled from the spec: an implementation of [blobstore.BlobAccess],
    which is not among the sources.  In the spec [Get] of a digest that is
    absent fails with NotFound, and [Put] answers InvalidArgument when the
    size of the buffer does not match the digest. *)
#[export] Instance BlobAccess_model
    : BlobAccess Blobs Fetched string Empty_set Files := {
  blobAccess_Get digest bs :=
    match Blobs_find digest bs with
    | Some blob => ((blob, None), bs)
    | None => (([], Some (StatusError NotFound "Blob not found")), bs)
    end;
  blobAccess_Put digest b d bs :=
    match uploaded b d with
    | Err err => (Some err, bs)
    | Ok blob =>
        if len blob =? sizeBytes digest then (None, (digest, blob) :: bs)
        else (Some (StatusError InvalidArgument "Buffer size mismatch"), bs)
    end
}.

(** Modelled from the spec: [util.DigestGenerator], which is not among
    the sources.  In the spec a digest is the instance, the hash and the
    exact byte length of the blob; the sum of the bytes in decimal stands
    in for the hash function. *)
Definition Sum_model (parentDigest : Digest) (data : list byte) : Digest :=
  mkDigest (instance parentDigest)
    (fmt_d (fold_right (fun b n => Z.of_N (Byte.to_N b) + n) 0 data))
    (len data).

Definition World_model : Type := World Files string Blobs Empty_set.

Definition parentDigest : Digest :=
  mkDigest "debian8" "d41d8cd98f00b204e9800998ecf8427e" 0.

Definition sampleDigest : Digest :=
  mkDigest "" "5d41402abc4b2a76b9719d911017c592" 5.

Definition emptyWorld : World_model := mkWorld [] [] [].

(** A build directory with a log that another process is still writing. *)
Definition logWorld : World_model :=
  mkWorld [("stdout", (420, [x68; x65; x6c; x6c; x6f]%byte))] [] [].

Definition moreOutput (s : World_model) : World_model :=
  mkWorld (Files_append "stdout" [x21; x0a]%byte (directory s))
    (blobAccess s) (calls s).

Definition quiet (s : World_model) : World_model := s.

(** Modelled from the spec: [Buffer.ToByteSlice], which is not among the
    sources; it fails with the error of the buffer, or when the buffer
    holds more than [max] bytes. *)
Definition ToByteSlice_model (b : Fetched) (max : Z) : Result (list byte) :=
  match snd b with
  | Some err => Err err
  | None =>
      if len (fst b) <=? max then Ok (fst b)
      else Err (StatusError InvalidArgument "Buffer is too large")
  end.

(** Modelled from the spec: [proto.Marshal] and [proto.Unmarshal] of a
    message, which are not among the sources; a message is its payload,
    encoded behind a one-byte tag. *)
Definition Marshal_model (message : list byte) : Result (list byte) :=
  Ok (x0a%byte :: message).

Definition Unmarshal_model (data : list byte) : Result (list byte) :=
  match data with
  | x0a%byte :: message => Ok message
  | _ => Err (ErrorsNew "proto: cannot parse invalid wire-format data")
  end.

Definition Write_model (parentDigest : Digest) (data : list byte)
    : option error := None.

(** Another process truncates the log. *)
Definition truncateOutput (s : World_model) : World_model :=
  mkWorld [("stdout", (420, [x68; x65]%byte))] (blobAccess s) (calls s).

(** A directory in which the file to create exists already. *)
Definition takenWorld : World_model :=
  mkWorld [("hello.txt", (420, [x6f; x6c; x64]%byte))] [] [].

End CAS.

(** * Proofs

    ** Shared facts *)

Lemma Digest_eqb_eq (a b : Digest) : Digest_eqb a b = true <-> a = b.
Proof.
  unfold Digest_eqb. destruct a as [i h n], b as [i' h' n']; simpl.
  rewrite !andb_true_iff, !String.eqb_eq, Z.eqb_eq.
  split.
  - intros [[-> ->] ->]. reflexivity.
  - intros E. injection E as -> -> ->. auto.
Qed.

Lemma Digest_eqb_refl (a : Digest) : Digest_eqb a a = true.
Proof. apply Digest_eqb_eq. reflexivity. Qed.

Lemma wrap64_id (z : Z) : - 2 ^ 63 <= z <= MaxInt64 -> wrap64 z = z.
Proof.
  unfold wrap64, MaxInt64. intros H.
  rewrite Z.mod_small by lia. lia.
Qed.

(** ** The ByteStream server *)
Module ByteStreamFacts.
Import ByteStream.

(** *** Facts about the library functions *)

Lemma digitValue_range (c : ascii) (d : Z) :
  digitValue c = Some d -> 0 <= d <= 9.
Proof.
  unfold digitValue.
  destruct (48 <=? Z.of_nat (nat_of_ascii c)) eqn:A;
    destruct (Z.of_nat (nat_of_ascii c) <=? 57) eqn:B; simpl; try discriminate.
  intros E. injection E as <-. lia.
Qed.

Lemma decimalValue_from_ge (s : string) :
  forall n v, 0 <= n -> decimalValue_from s n = Some v -> n <= v.
Proof.
  induction s as [|c s IH]; simpl; intros n v Hn E.
  - injection E as <-. lia.
  - destruct (digitValue c) as [d|] eqn:D; [|discriminate].
    apply digitValue_range in D.
    apply IH in E; lia.
Qed.

(** The digit loop of [ParseUint] succeeds exactly on digit strings whose
    value fits 64 bits, and then returns that value; a range error comes
    with [maxUint64]. *)
Lemma ParseUint_loop_spec (s : string) :
  forall n, 0 <= n <= maxUint64 ->
    (exists v, decimalValue_from s n = Some v /\ v <= maxUint64
               /\ ParseUint_loop s n = (v, None))
    \/ ((decimalValue_from s n = None
         \/ exists v, decimalValue_from s n = Some v /\ maxUint64 < v)
        /\ (ParseUint_loop s n = (0, Some ErrSyntax)
            \/ ParseUint_loop s n = (maxUint64, Some ErrRange))).
Proof.
  induction s as [|c s IH]; intros n Hn;
    cbn [ParseUint_loop decimalValue_from].
  - left. exists n. repeat split; lia.
  - destruct (digitValue c) as [d|] eqn:D.
    2:{ right. split; auto. }
    pose proof (digitValue_range _ _ D) as Hd.
    assert (Hbig : forall m, maxUint64 < m ->
              decimalValue_from s m = None
              \/ exists v, decimalValue_from s m = Some v /\ maxUint64 < v).
    { intros m Hm. destruct (decimalValue_from s m) as [v|] eqn:V; auto.
      right. exists v. split; auto.
      apply decimalValue_from_ge in V; unfold maxUint64 in *; lia. }
    cbv zeta.
    assert (E64 : 2 ^ 64 = 18446744073709551616) by reflexivity.
    assert (EM : maxUint64 = 18446744073709551615) by reflexivity.
    assert (EC : maxUint64 / 10 + 1 = 1844674407370955162) by reflexivity.
    rewrite EC, E64.
    destruct (1844674407370955162 <=? n) eqn:C.
    + apply Z.leb_le in C. right. split; [apply Hbig; lia | auto].
    + apply Z.leb_gt in C.
      rewrite (Z.mod_small (n * 10)) by lia.
      destruct (Z_lt_ge_dec (n * 10 + d) 18446744073709551616) as [L|G].
      * rewrite (Z.mod_small (n * 10 + d)) by lia.
        assert (A : (n * 10 + d <? n * 10) = false) by (apply Z.ltb_ge; lia).
        assert (B : (maxUint64 <? n * 10 + d) = false) by (apply Z.ltb_ge; lia).
        rewrite A, B. cbn [orb]. apply IH. lia.
      * assert (R : (n * 10 + d) mod 18446744073709551616
                    = n * 10 + d - 18446744073709551616).
        { symmetry. apply Z.mod_unique with (q := 1); lia. }
        rewrite R.
        assert (A : (n * 10 + d - 18446744073709551616 <? n * 10) = true)
          by (apply Z.ltb_lt; lia).
        rewrite A. cbn [orb]. right. split; [apply Hbig; lia | auto].
Qed.

Lemma ParseUint_spec (s : string) :
  (exists v, decimalValue s = Some v /\ v <= maxUint64
             /\ ParseUint s = (v, None))
  \/ ((decimalValue s = None
       \/ exists v, decimalValue s = Some v /\ maxUint64 < v)
      /\ (ParseUint s = (0, Some ErrSyntax)
          \/ ParseUint s = (maxUint64, Some ErrRange))).
Proof.
  destruct s as [|c s].
  - right. split; auto.
  - unfold ParseUint, decimalValue.
    apply ParseUint_loop_spec. unfold maxUint64. lia.
Qed.

Lemma decimalValue_nonneg (s : string) (v : Z) :
  decimalValue s = Some v -> 0 <= v.
Proof.
  destruct s as [|c s]; [discriminate|].
  unfold decimalValue. intros E.
  apply decimalValue_from_ge in E; lia.
Qed.

Lemma ParseInt_unfold (c : ascii) (rest : string) :
  ParseInt (String c rest) =
    if Ascii.eqb c "+" then ParseInt_signed false rest
    else if Ascii.eqb c "-" then ParseInt_signed true rest
    else ParseInt_signed false (String c rest).
Proof.
  unfold ParseInt, ParseInt_signed.
  destruct (Ascii.eqb c "+"); [reflexivity|].
  destruct (Ascii.eqb c "-"); reflexivity.
Qed.

Lemma inInt64_iff (n : Z) :
  inInt64 n = true <-> -9223372036854775808 <= n <= 9223372036854775807.
Proof.
  unfold inInt64, MaxInt64.
  change (2 ^ 63) with 9223372036854775808.
  rewrite andb_true_iff, !Z.leb_le. lia.
Qed.

Lemma inInt64_false_iff (n : Z) :
  inInt64 n = false <-> n < -9223372036854775808 \/ 9223372036854775807 < n.
Proof.
  rewrite <- not_true_iff_false, inInt64_iff. lia.
Qed.

Lemma wrap64_neg_min :
  wrap64 (- wrap64 9223372036854775808) = - 9223372036854775808.
Proof. reflexivity. Qed.

Lemma ParseInt_signed_spec (neg : bool) (s1 : string) :
  (exists v, decimalValue s1 = Some v /\ inInt64 (signed neg v) = true
             /\ ParseInt_signed neg s1 = (signed neg v, None))
  \/ ((decimalValue s1 = None
       \/ exists v, decimalValue s1 = Some v /\ inInt64 (signed neg v) = false)
      /\ exists r e, ParseInt_signed neg s1 = (r, Some e)).
Proof.
  assert (EM : maxUint64 = 18446744073709551615) by reflexivity.
  unfold ParseInt_signed.
  destruct (ParseUint_spec s1) as [(v & V & Hv & P) | (Hbad & [P | P])];
    rewrite P; cbv zeta.
  - pose proof (decimalValue_nonneg _ _ V) as Hv0.
    change (2 ^ 63) with 9223372036854775808.
    rewrite EM in Hv.
    destruct neg; cbn [negb andb signed].
    + destruct (Z.ltb_spec 9223372036854775808 v) as [C|C].
      * right. split; [|eauto].
        right. exists v. split; auto. apply inInt64_false_iff. cbn [signed]. lia.
      * left. exists v. split; auto. split.
        { apply inInt64_iff. cbn [signed]. lia. }
        cbn [signed]. f_equal.
        destruct (Z.eq_dec v 9223372036854775808) as [->|N];
          [apply wrap64_neg_min|].
        rewrite (wrap64_id v) by (unfold MaxInt64; lia).
        apply wrap64_id. unfold MaxInt64; lia.
    + destruct (Z.leb_spec 9223372036854775808 v) as [C|C].
      * right. split; [|eauto].
        right. exists v. split; auto. apply inInt64_false_iff. cbn [signed]. lia.
      * left. exists v. split; auto. split.
        { apply inInt64_iff. cbn [signed]. lia. }
        cbn [signed]. f_equal. apply wrap64_id. unfold MaxInt64; lia.
  - right. split; [|eauto].
    destruct Hbad as [N | (v & V & Hv)]; [auto|].
    right. exists v. split; auto. apply inInt64_false_iff.
    pose proof (decimalValue_nonneg _ _ V). rewrite EM in Hv.
    destruct neg; cbn [signed]; lia.
  - right. split.
    + destruct Hbad as [N | (v & V & Hv)]; [auto|].
      right. exists v. split; auto. apply inInt64_false_iff.
      pose proof (decimalValue_nonneg _ _ V). rewrite EM in Hv.
      destruct neg; cbn [signed]; lia.
    + rewrite EM. change (2 ^ 63) with 9223372036854775808.
      destruct neg; cbn [negb andb].
      * change (9223372036854775808 <? 18446744073709551615) with true.
        cbv iota. eauto.
      * change (9223372036854775808 <=? 18446744073709551615) with true.
        cbv iota. eauto.
Qed.

(** [strconv.ParseInt(s, 10, 64)] returns without an error exactly on the
    decimal integers that fit 64 bits, and then returns their value. *)
Lemma ParseInt_spec (s : string) :
  match decimalInt64 s with
  | Some n => ParseInt s = (n, None)
  | None => exists r e, ParseInt s = (r, Some e)
  end.
Proof.
  assert (K : forall neg s1,
    match match option_map (signed neg) (decimalValue s1) with
          | Some n => if inInt64 n then Some n else None
          | None => None
          end with
    | Some n => ParseInt_signed neg s1 = (n, None)
    | None => exists r e, ParseInt_signed neg s1 = (r, Some e)
    end).
  { intros neg s1.
    destruct (ParseInt_signed_spec neg s1)
      as [(v & V & I & P) | ([N | (v & V & I)] & P)].
    - rewrite V. cbn [option_map]. rewrite I. exact P.
    - rewrite N. exact P.
    - rewrite V. cbn [option_map]. rewrite I. exact P. }
  destruct s as [|c rest].
  - cbn. eauto.
  - rewrite ParseInt_unfold. unfold decimalInt64, decimalInteger.
    fold (inInt64).
    destruct (Ascii.eqb c "+").
    + specialize (K false rest).
      destruct (decimalValue rest); exact K.
    + destruct (Ascii.eqb c "-").
      * specialize (K true rest).
        destruct (decimalValue rest); exact K.
      * specialize (K false (String c rest)).
        destruct (decimalValue (String c rest)); exact K.
Qed.

Lemma stringForall_snoc (p : ascii -> bool) (s : string) (c : ascii) :
  stringForall p (s ++ String c "")%string = stringForall p s && p c.
Proof.
  induction s as [|a s IH]; cbn [append stringForall].
  - rewrite andb_true_r. reflexivity.
  - rewrite IH, andb_assoc. reflexivity.
Qed.

Lemma snoc_not_empty (s : string) (c : ascii) :
  (s ++ String c "")%string <> "".
Proof. destruct s; discriminate. Qed.

Lemma FieldsFunc_from_proper (f : ascii -> bool) (s : string) :
  forall (field : string) (wasField : bool),
    (if wasField then properField f field else field = "") ->
    Forall (properField f) (FieldsFunc_from f s field wasField).
Proof.
  induction s as [|r s IH]; intros field wasField H; cbn [FieldsFunc_from].
  - destruct wasField; auto.
  - destruct (f r) eqn:F.
    + destruct wasField.
      * constructor; [auto|]. apply IH. reflexivity.
      * apply IH. reflexivity.
    + apply IH. split.
      * apply snoc_not_empty.
      * rewrite stringForall_snoc, F.
        destruct wasField.
        -- destruct H as [_ ->]. reflexivity.
        -- rewrite H. reflexivity.
Qed.

Lemma FieldsFunc_proper (s : string) (f : ascii -> bool) :
  Forall (properField f) (FieldsFunc s f).
Proof. apply FieldsFunc_from_proper. reflexivity. Qed.

(** *** The parser of write resource names *)

(** C6, as amended.  [parseResourceNameWrite] answers InvalidArgument
    ("Invalid resource naming scheme") on every string that does not split
    on ['/'] into [uploads/<uuid>/blobs/<hash>/<size>], optionally preceded
    by one instance field, with [<size>] a decimal integer that fits a
    signed 64-bit integer.  On the strings that do, it returns whatever
    [util.NewDigest] returns for the instance (the first of six fields,
    empty for five), the hash (second from last) and the size (last). *)
Theorem parseResourceNameWrite_spec
    (NewDigest : string -> PartialDigest -> Result Digest)
    (resourceName : string) :
  parseResourceNameWrite NewDigest resourceName =
    match writeResourceName resourceName with
    | Some (inst, pd) => NewDigest inst pd
    | None => Err invalidResourceName
    end.
Proof.
  unfold parseResourceNameWrite, writeResourceName.
  destruct (FieldsFunc resourceName _)
    as [|f0 [|f1 [|f2 [|f3 [|f4 [|f5 [|f6 tl]]]]]]]; try reflexivity.
  - cbn [List.length Nat.eqb negb andb orb Nat.sub nth].
    destruct (String.eqb f0 "uploads"); cbn [negb andb orb]; [|reflexivity].
    destruct (String.eqb f2 "blobs"); cbn [negb andb orb]; [|reflexivity].
    pose proof (ParseInt_spec f4) as P.
    destruct (decimalInt64 f4) as [n|].
    + rewrite P. reflexivity.
    + destruct P as (r & e & ->). reflexivity.
  - cbn [List.length Nat.eqb negb andb orb Nat.sub nth].
    destruct (String.eqb f1 "uploads"); cbn [negb andb orb]; [|reflexivity].
    destruct (String.eqb f3 "blobs"); cbn [negb andb orb]; [|reflexivity].
    pose proof (ParseInt_spec f5) as P.
    destruct (decimalInt64 f5) as [n|].
    + rewrite P. reflexivity.
    + destruct P as (r & e & ->). reflexivity.
Qed.

(** C6 as stated fails: a size field that is a decimal integer but does not
    fit 64 bits is rejected, although every other field is as required. *)
Lemma parseResourceNameWrite_rejects_large_size :
  let name :=
    "uploads/7e3c/blobs/d41d8cd98f00b204e9800998ecf8427e/9223372036854775808" in
  namedAsWrite name = true
  /\ parseResourceNameWrite NewDigest_model name = Err invalidResourceName.
Proof. split; vm_compute; reflexivity. Qed.

Example parseResourceNameWrite_five :
  parseResourceNameWrite NewDigest_model
    "uploads/7e3c/blobs/d41d8cd98f00b204e9800998ecf8427e/0"
  = Ok (mkDigest "" "d41d8cd98f00b204e9800998ecf8427e" 0).
Proof. vm_compute. reflexivity. Qed.

Example parseResourceNameWrite_six :
  parseResourceNameWrite NewDigest_model
    "//debian8/uploads/7e3c/blobs/d41d8cd98f00b204e9800998ecf8427e/+123/"
  = Ok (mkDigest "debian8" "d41d8cd98f00b204e9800998ecf8427e" 123).
Proof. vm_compute. reflexivity. Qed.

Example parseResourceNameWrite_min :
  parseResourceNameWrite (fun i pd => Ok (mkDigest i (Hash pd) (SizeBytes pd)))
    "uploads/7e3c/blobs/d41d/-9223372036854775808"
  = Ok (mkDigest "" "d41d" (-9223372036854775808)).
Proof. vm_compute. reflexivity. Qed.

(** *** The chunk reader *)

Lemma wrap64_add_l (a b : Z) : wrap64 (wrap64 a + b) = wrap64 (a + b).
Proof.
  unfold wrap64.
  replace ((a + 2 ^ 63) mod 2 ^ 64 - 2 ^ 63 + b + 2 ^ 63)
    with ((a + 2 ^ 63) mod 2 ^ 64 + b) by lia.
  rewrite Z.add_mod_idemp_l by (change (2 ^ 64) with 18446744073709551616; lia).
  f_equal. f_equal. lia.
Qed.

Lemma totalLength_snoc (l : list WriteRequest) (request : WriteRequest) :
  totalLength (l ++ [request]) = totalLength l + len (Data request).
Proof.
  unfold totalLength. induction l as [|a l IH]; cbn [app fold_right].
  - lia.
  - rewrite IH. lia.
Qed.

Lemma existsb_snoc {A : Type} (p : A -> bool) (l : list A) (a : A) :
  existsb p (l ++ [a]) = existsb p l || p a.
Proof. rewrite existsb_app. cbn. rewrite orb_false_r. reflexivity. Qed.

Lemma setRequest_accepts (request : WriteRequest)
    (r r' : byteStreamWriteServerChunkReader) :
  setRequest request r = (None, r') ->
  finishedWrite r = false /\ WriteOffset request = writeOffset r
  /\ r' = mkChunkReader (stream r)
            (wrap64 (writeOffset r + len (Data request)))
            (Data request) (FinishWrite request).
Proof.
  unfold setRequest.
  destruct (finishedWrite r); [discriminate|].
  destruct (Z.eqb_spec (WriteOffset request) (writeOffset r)) as [E|N];
    cbn [negb]; [|discriminate].
  intros H. injection H as <-. auto.
Qed.

Lemma Recv_request (s s' : WriteServer) (request : WriteRequest) :
  Recv s = (Ok request, s') ->
  incoming s = request :: incoming s' /\ closing s' = closing s.
Proof.
  unfold Recv. destruct (incoming s) as [|a rest] eqn:E; [discriminate|].
  intros H. injection H as <- <-. auto.
Qed.

Lemma reading_tracks (stream0 : WriteServer)
    (r : byteStreamWriteServerChunkReader) :
  reading stream0 r -> exists got, tracks stream0 got r.
Proof.
  induction 1 as [request stream1 r HR HS | r r' chunk _ [got T] HRead].
  - apply Recv_request in HR as [I C].
    apply setRequest_accepts in HS as (_ & O & ->).
    exists [request]. cbn [writeOffset] in O.
    split; cbn [stream writeOffset finishedWrite app existsb totalLength
                 fold_right]; auto.
    + f_equal. lia.
    + rewrite orb_false_r. reflexivity.
  - destruct T as [TI TC TO TF].
    unfold Read in HRead.
    destruct (len (data r) =? 0).
    + destruct (Recv (stream r)) as [[request|err] stream'] eqn:HR.
      * apply Recv_request in HR as [I C].
        destruct (setRequest request _) as [[err|] r2] eqn:HS; [discriminate|].
        apply setRequest_accepts in HS as (F & O & ->).
        injection HRead as _ <-. cbn [stream writeOffset finishedWrite] in *.
        exists (got ++ [request]).
        split; cbn [stream writeOffset finishedWrite].
        -- rewrite TI, I, <- app_assoc. reflexivity.
        -- congruence.
        -- rewrite TO, wrap64_add_l, totalLength_snoc. reflexivity.
        -- rewrite existsb_snoc, <- TF, F. reflexivity.
      * destruct (isEOF err && negb _); discriminate.
    + injection HRead as _ <-. exists got. split; auto.
Qed.

Lemma tracks_received (stream0 : WriteServer) (got : list WriteRequest)
    (r : byteStreamWriteServerChunkReader) :
  tracks stream0 got r -> received stream0 r = got.
Proof.
  intros [TI _ _ _]. unfold received. rewrite TI.
  rewrite length_app.
  replace (List.length got + List.length (incoming (stream r))
           - List.length (incoming (stream r)))%nat
    with (List.length got + 0)%nat by lia.
  rewrite firstn_app_2. cbn. apply app_nil_r.
Qed.

(** C3, as amended.  The first request of a Write stream is expected at
    offset 0, every later one at the sum of the data lengths received so
    far (as an [int64]); a request at another offset yields InvalidArgument.
    Once the first request has been accepted, a stream that reaches EOF
    without any request carrying [finish_write = true] yields
    InvalidArgument, and so does a request received after one that carried
    [finish_write = true]. *)
Theorem Write_stream_misordering
    (NewDigest : string -> PartialDigest -> Result Digest)
    (blobAccess_Put : Digest -> M byteStreamWriteServerChunkReader (option error))
    (SendAndClose : WriteResponse -> option error)
    (stream0 : WriteServer) :
  (forall request stream1 digest,
      Recv stream0 = (Ok request, stream1) ->
      parseResourceNameWrite NewDigest (ResourceName request) = Ok digest ->
      WriteOffset request <> 0 ->
      exists msg,
        Write NewDigest blobAccess_Put SendAndClose stream0
        = Some (StatusError InvalidArgument msg))
  /\ (forall r, reading stream0 r -> data r = [] ->
        let got := received stream0 r in
        incoming stream0 = got ++ incoming (stream r)
        /\ (forall request rest,
              incoming (stream r) = request :: rest ->
              WriteOffset request <> wrap64 (totalLength got) ->
              exists msg, fst (Read r) = Err (StatusError InvalidArgument msg))
        /\ (incoming (stream r) = [] -> closing stream0 = EOF ->
            existsb FinishWrite got = false ->
            fst (Read r)
            = Err (StatusError InvalidArgument
                     "Client closed stream without finishing write"))
        /\ (forall request rest,
              incoming (stream r) = request :: rest ->
              existsb FinishWrite got = true ->
              fst (Read r)
              = Err (StatusError InvalidArgument "Client closed stream twice"))).
Proof.
  split.
  - intros request stream1 digest HR HP HO.
    unfold Write. rewrite HR, HP. unfold setRequest.
    cbn [finishedWrite writeOffset].
    destruct (Z.eqb_spec (WriteOffset request) 0) as [E|N]; [contradiction|].
    cbn [negb]. eauto.
  - intros r Hr Hd got.
    destruct (reading_tracks _ _ Hr) as [got' T].
    assert (G : got = got') by (apply tracks_received; exact T).
    subst got'. destruct T as [TI TC TO TF].
    split; [exact TI|].
    unfold Read, Recv. rewrite Hd. cbn [len List.length Z.of_nat Z.eqb].
    repeat split.
    + intros request rest I HO. rewrite I. unfold setRequest.
      cbn [finishedWrite writeOffset fst].
      destruct (finishedWrite r); [cbn [fst]; eauto|].
      assert (E : (WriteOffset request =? writeOffset r) = false)
        by (apply Z.eqb_neq; congruence).
      rewrite E. cbn [negb fst]. eauto.
    + intros I C F. rewrite I, TC, C.
      cbn [isEOF finishedWrite andb]. rewrite TF, F. reflexivity.
    + intros request rest I F. rewrite I. unfold setRequest.
      cbn [finishedWrite]. rewrite TF, F. reflexivity.
Qed.

Lemma Write_stream_misordering_witness :
  let r := mkChunkReader
             (mkWriteServer [mkWriteRequest "" 7 true [x6c; x6c; x6f]%byte] EOF)
             2 [] false in
  reading sampleMisordered r
  /\ (exists msg, fst (Read r) = Err (StatusError InvalidArgument msg))
  /\ (exists msg,
        Write NewDigest_model (fun _ => drain 4) (fun _ => None) sampleLate
        = Some (StatusError InvalidArgument msg)).
Proof.
  intros r.
  assert (Hr : reading sampleMisordered r).
  { eapply reading_next; [eapply reading_first; reflexivity | reflexivity]. }
  split; [exact Hr|]. split.
  - destruct (Write_stream_misordering NewDigest_model (fun _ => drain 4)
                (fun _ => None) sampleMisordered) as [_ H].
    destruct (H r Hr eq_refl) as (_ & Ha & _).
    apply (Ha (mkWriteRequest "" 7 true [x6c; x6c; x6f]%byte) []).
    + reflexivity.
    + vm_compute. discriminate.
  - destruct (Write_stream_misordering NewDigest_model (fun _ => drain 4)
                (fun _ => None) sampleLate) as [H _].
    eapply H.
    + reflexivity.
    + vm_compute. reflexivity.
    + cbn. discriminate.
Defined.

(** C3 as stated fails on a stream that the client closes before its first
    request: no request carried [finish_write = true], and [Write] returns
    the stream's [io.EOF] as it is. *)
Lemma Write_closed_before_first_request :
  let stream0 := mkWriteServer [] EOF in
  existsb FinishWrite (incoming stream0) = false
  /\ Write NewDigest_model (fun _ => drain 4) (fun _ => None) stream0
     = Some EOF
  /\ codeOf EOF <> Some InvalidArgument.
Proof. repeat split. discriminate. Qed.

Example Write_complete :
  Write NewDigest_model (fun _ => drain 4) (fun _ => None) sampleComplete
  = None.
Proof. vm_compute. reflexivity. Qed.

Example Write_misordered :
  Write NewDigest_model (fun _ => drain 4) (fun _ => None) sampleMisordered
  = Some (StatusError InvalidArgument
            "Attempted to write at offset 7, while 2 was expected").
Proof. vm_compute. reflexivity. Qed.

Example Write_unfinished :
  Write NewDigest_model (fun _ => drain 4) (fun _ => None) sampleUnfinished
  = Some (StatusError InvalidArgument
            "Client closed stream without finishing write").
Proof. vm_compute. reflexivity. Qed.

(** *** Further properties of the parser *)

Lemma append_assoc (a b c : string) :
  ((a ++ b) ++ c)%string = (a ++ b ++ c)%string.
Proof. induction a as [|x a IH]; cbn; [reflexivity|]. rewrite IH. reflexivity. Qed.

Lemma append_empty_r (a : string) : (a ++ "")%string = a.
Proof. induction a as [|x a IH]; cbn; [reflexivity|]. rewrite IH. reflexivity. Qed.

(** Scanning a stretch without separators extends the field being
    scanned. *)
Lemma FieldsFunc_from_stretch (f : ascii -> bool) (x rest : string) :
  forall (field : string) (wasField : bool),
    stringForall (fun c => negb (f c)) x = true ->
    FieldsFunc_from f (x ++ rest) field wasField
    = match x with
      | EmptyString => FieldsFunc_from f rest field wasField
      | _ => FieldsFunc_from f rest (field ++ x) true
      end.
Proof.
  induction x as [|c x IH]; intros field wasField Hx; [reflexivity|].
  cbn [stringForall] in Hx. apply andb_true_iff in Hx as [Hc Hx].
  apply negb_true_iff in Hc.
  cbn [append FieldsFunc_from]. rewrite Hc.
  rewrite (IH _ true Hx).
  destruct x as [|c' x']; [reflexivity|].
  rewrite append_assoc. reflexivity.
Qed.

(** Splitting what [strings.Join] made gives the fields back. *)
Lemma FieldsFunc_joinSlash (f : ascii -> bool) (fields : list string) :
  f "/"%char = true ->
  Forall (properField f) fields ->
  FieldsFunc (joinSlash fields) f = fields.
Proof.
  intros Hf. unfold FieldsFunc.
  induction fields as [|x fields IH]; intros Hall; [reflexivity|].
  inversion Hall as [|? ? [Hne Hx] Hrest]; subst.
  destruct fields as [|y fields].
  - cbn [joinSlash].
    rewrite <- (append_empty_r x) at 1.
    rewrite (FieldsFunc_from_stretch f x "" "" false Hx).
    destruct x; [contradiction|]. reflexivity.
  - change (joinSlash (x :: y :: fields))
      with (x ++ String "/" (joinSlash (y :: fields)))%string.
    rewrite (FieldsFunc_from_stretch f x _ "" false Hx).
    destruct x as [|c x]; [contradiction|].
    cbn [FieldsFunc_from append]. rewrite Hf.
    f_equal. apply IH. exact Hrest.
Qed.

Lemma decimalValue_from_digits (s : string) :
  forall n v, decimalValue_from s n = Some v ->
    stringForall (fun c => negb (isSlash c)) s = true.
Proof.
  induction s as [|c s IH]; intros n v E; [reflexivity|].
  cbn [decimalValue_from] in E. cbn [stringForall].
  destruct (digitValue c) as [d|] eqn:D; [|discriminate].
  rewrite (IH _ _ E), andb_true_r.
  unfold digitValue in D. unfold isSlash.
  destruct (Ascii.eqb_spec c "/"%char) as [->|]; [discriminate D|reflexivity].
Qed.

Lemma decimalInt64_proper (s : string) (n : Z) :
  decimalInt64 s = Some n -> properField isSlash s.
Proof.
  unfold decimalInt64, decimalInteger, decimalValue.
  destruct s as [|c rest]; [discriminate|].
  intros E. split; [discriminate|].
  cbn [stringForall].
  destruct (Ascii.eqb_spec c "+"%char) as [->|Np].
  - destruct rest as [|c' rest']; [discriminate|].
    destruct (decimalValue_from (String c' rest') 0) as [v|] eqn:V;
      [|discriminate].
    rewrite (decimalValue_from_digits _ _ _ V). reflexivity.
  - destruct (Ascii.eqb_spec c "-"%char) as [->|Nm].
    + destruct rest as [|c' rest']; [discriminate|].
      destruct (decimalValue_from (String c' rest') 0) as [v|] eqn:V;
        [|discriminate].
      rewrite (decimalValue_from_digits _ _ _ V). reflexivity.
    + destruct (decimalValue_from (String c rest) 0) as [v|] eqn:V;
        [|discriminate].
      apply decimalValue_from_digits in V. exact V.
Qed.

(** X8.  Every name of the two documented forms is accepted: for an
    instance, a UUID and a hash that are non-empty and free of ['/'], and a
    size that is a decimal integer of 64 bits, the names
    [uploads/uuid/blobs/hash/size] and
    [instance/uploads/uuid/blobs/hash/size] parse to what [util.NewDigest]
    makes of the hash and the size, with the empty instance for the first
    and [instance] for the second.  A name of well-formed fields whose
    number is neither 5 nor 6, such as one whose instance contains a
    ['/'], is rejected. *)
Theorem parseResourceNameWrite_accepts
    (NewDigest : string -> PartialDigest -> Result Digest)
    (inst uuid hash size : string) (n : Z) :
  properField isSlash inst -> properField isSlash uuid ->
  properField isSlash hash -> decimalInt64 size = Some n ->
  parseResourceNameWrite NewDigest
    (joinSlash ["uploads"; uuid; "blobs"; hash; size])
  = NewDigest "" (mkPartialDigest hash n)
  /\ parseResourceNameWrite NewDigest
       (joinSlash [inst; "uploads"; uuid; "blobs"; hash; size])
     = NewDigest inst (mkPartialDigest hash n)
  /\ forall fields,
      Forall (properField isSlash) fields ->
      List.length fields <> 5%nat -> List.length fields <> 6%nat ->
      parseResourceNameWrite NewDigest (joinSlash fields)
      = Err invalidResourceName.
Proof.
  intros Hi Hu Hh Hs.
  pose proof (decimalInt64_proper size n Hs) as Hsize.
  assert (Hup : properField isSlash "uploads") by (split; [discriminate|reflexivity]).
  assert (Hbl : properField isSlash "blobs") by (split; [discriminate|reflexivity]).
  pose proof (ParseInt_spec size) as P. rewrite Hs in P.
  split; [|split].
  - unfold parseResourceNameWrite.
    change (fun r : ascii => Ascii.eqb r "/") with isSlash.
    rewrite FieldsFunc_joinSlash
      by (try reflexivity;
          repeat (apply Forall_cons; [assumption|]); apply Forall_nil).
    cbn [List.length Nat.eqb negb andb orb Nat.sub nth String.eqb Ascii.eqb
         Bool.eqb].
    rewrite P. reflexivity.
  - unfold parseResourceNameWrite.
    change (fun r : ascii => Ascii.eqb r "/") with isSlash.
    rewrite FieldsFunc_joinSlash
      by (try reflexivity;
          repeat (apply Forall_cons; [assumption|]); apply Forall_nil).
    cbn [List.length Nat.eqb negb andb orb Nat.sub nth String.eqb Ascii.eqb
         Bool.eqb].
    rewrite P. reflexivity.
  - intros fields Hall N5 N6. unfold parseResourceNameWrite.
    change (fun r : ascii => Ascii.eqb r "/") with isSlash.
    rewrite FieldsFunc_joinSlash by (try reflexivity; assumption).
    cbv zeta.
    destruct (Nat.eqb_spec (List.length fields) 5); [contradiction|].
    destruct (Nat.eqb_spec (List.length fields) 6); [contradiction|].
    reflexivity.
Qed.

Lemma parseResourceNameWrite_accepts_witness :
  parseResourceNameWrite NewDigest_model
    (joinSlash ["debian8"; "uploads"; "7e3c"; "blobs";
                "d41d8cd98f00b204e9800998ecf8427e"; "0"])
  = Ok (mkDigest "debian8" "d41d8cd98f00b204e9800998ecf8427e" 0)
  /\ parseResourceNameWrite NewDigest_model
       (joinSlash ["team"; "debian8"; "uploads"; "7e3c"; "blobs";
                   "d41d8cd98f00b204e9800998ecf8427e"; "0"])
     = Err invalidResourceName.
Proof.
  destruct (parseResourceNameWrite_accepts NewDigest_model
              "debian8" "7e3c" "d41d8cd98f00b204e9800998ecf8427e" "0" 0)
    as (_ & Six & Other);
    try (split; [discriminate|reflexivity]); try reflexivity.
  split.
  - rewrite Six. reflexivity.
  - apply Other.
    + repeat constructor; try discriminate.
    + discriminate.
    + discriminate.
Defined.

(** *** Further properties of the chunk reader *)

Lemma len_zero_iff {A : Type} (l : list A) : (len l =? 0) = true <-> l = [].
Proof.
  unfold len. destruct l; cbn; split; intros E; try reflexivity;
    try discriminate.
Qed.

(** X9.  The chunk reader reports [io.EOF], the clean end of the blob,
    in one case only: no data is pending, the client has closed the stream
    and the last request it accepted carried [finish_write = true]. *)
Theorem Read_EOF_iff (r : byteStreamWriteServerChunkReader) :
  fst (Read r) = Err EOF
  <-> data r = [] /\ incoming (stream r) = []
      /\ closing (stream r) = EOF /\ finishedWrite r = true.
Proof.
  unfold Read, Recv.
  destruct (data r) as [|x d] eqn:D.
  - cbn [len List.length Z.of_nat Z.eqb].
    destruct (incoming (stream r)) as [|request rest] eqn:I.
    + cbn [finishedWrite fst].
      destruct (closing (stream r)) eqn:Cl, (finishedWrite r) eqn:Fin;
        cbn; split; try (intros (_ & _ & ? & ?)); try intros ?;
        try discriminate; auto.
    + unfold setRequest. cbn [finishedWrite writeOffset].
      destruct (finishedWrite r).
      * cbn. split; [discriminate|]. intros (_ & ? & _). discriminate.
      * destruct (negb (WriteOffset request =? writeOffset r)); cbn;
          (split; [discriminate|]); intros (_ & ? & _); discriminate.
  - replace (len (x :: d) =? 0) with false
      by (symmetry; unfold len; cbn; reflexivity).
    cbn. split; [discriminate|]. intros (? & _). discriminate.
Qed.

Lemma readAll_drained (requests : list WriteRequest) :
  forall (offset : Z) (finished : bool) (fuel : nat),
    contiguous offset finished requests = true ->
    (List.length requests < fuel)%nat ->
    fst (readAll fuel
           (mkChunkReader (mkWriteServer requests EOF) offset [] finished))
    = (List.concat (map Data requests), Some EOF).
Proof.
  induction requests as [|request requests IH];
    intros offset finished fuel Hc Hf.
  - destruct fuel as [|fuel]; [cbn in Hf; lia|].
    cbn in Hc. subst finished. reflexivity.
  - destruct fuel as [|fuel]; [cbn in Hf; lia|].
    cbn [contiguous] in Hc.
    apply andb_true_iff in Hc as [Hc Hrest].
    apply andb_true_iff in Hc as [Hfin Hoff].
    apply negb_true_iff in Hfin. subst finished.
    cbn [readAll]. unfold bind at 1. unfold Read, Recv.
    cbn [data stream incoming closing len List.length Z.of_nat Z.eqb
         finishedWrite writeOffset].
    unfold setRequest. cbn [finishedWrite writeOffset stream].
    rewrite Hoff. cbn [negb data stream writeOffset finishedWrite].
    unfold bind.
    specialize (IH (wrap64 (offset + len (Data request)))
                  (FinishWrite request) fuel Hrest).
    destruct (readAll fuel _) as [[rest err] r'].
    cbn [fst] in IH. cbn [map List.concat fst ret].
    assert (E : (rest, err) = (List.concat (map Data requests), Some EOF))
      by (apply IH; cbn in Hf; lia).
    injection E as -> ->. reflexivity.
Qed.

(** X10.  A well-formed upload reaches the blob access whole and in order.
    When the requests of a stream follow each other from offset 0, only
    the last one finishes the write and the client then closes the stream,
    [setRequest] accepts the first request, and a consumer that reads the
    chunk reader to its end gets the data of all requests, concatenated in
    the order received, and then [io.EOF]. *)
Theorem chunks_of_wellformed_stream
    (request : WriteRequest) (rest : list WriteRequest) (fuel : nat) :
  contiguous 0 false (request :: rest) = true ->
  (List.length rest + 1 < fuel)%nat ->
  exists r,
    setRequest request (mkChunkReader (mkWriteServer rest EOF) 0 [] false)
    = (None, r)
    /\ fst (readAll fuel r)
       = (List.concat (map Data (request :: rest)), Some EOF).
Proof.
  intros Hc Hf. cbn [contiguous negb andb] in Hc.
  apply andb_true_iff in Hc as [Hoff Hrest].
  unfold setRequest. cbn [finishedWrite writeOffset stream].
  rewrite Hoff. cbn [negb].
  eexists. split; [reflexivity|].
  cbn [map List.concat].
  destruct (Data request) as [|x d] eqn:D.
  - apply (readAll_drained rest (wrap64 (0 + len (@nil byte)))
             (FinishWrite request) fuel); [exact Hrest | lia].
  - destruct fuel as [|fuel]; [lia|].
    cbn [readAll]. unfold bind at 1. unfold Read.
    cbn [data stream writeOffset finishedWrite].
    replace (len (x :: d) =? 0) with false by reflexivity.
    unfold bind.
    pose proof (readAll_drained rest (wrap64 (0 + len (x :: d)))
                  (FinishWrite request) fuel Hrest ltac:(lia)) as Dr.
    destruct (readAll fuel _) as [[more err] r'].
    cbn [fst] in Dr. cbn [fst ret].
    injection Dr as -> ->. reflexivity.
Qed.

Lemma chunks_of_wellformed_stream_witness :
  exists r,
    setRequest (mkWriteRequest sampleName 0 false [x68; x65]%byte)
      (mkChunkReader
         (mkWriteServer [mkWriteRequest "" 2 true [x6c; x6c; x6f]%byte] EOF)
         0 [] false)
    = (None, r)
    /\ fst (readAll 3 r)
       = ([x68; x65; x6c; x6c; x6f]%byte, Some EOF).
Proof.
  apply (chunks_of_wellformed_stream
           (mkWriteRequest sampleName 0 false [x68; x65]%byte)
           [mkWriteRequest "" 2 true [x6c; x6c; x6f]%byte] 3).
  - reflexivity.
  - cbn. lia.
Defined.

(** *** The Read method of the server *)

Section ReadServer.

Context {O : Type}.
Variable NewDigestFromBytestreamPath : string -> Result Digest.
Variable blobAccess_Get_ToChunkReader : Digest -> Z -> Z -> ChunkReader.
Variable out_Send : list byte -> O -> option error * O.
Variable readChunkSize : Z.

Lemma Server_Read_loop_run (pending : list (list byte)) (readErr : error) :
  forall s : ReadServer,
    let '(err, s') := Server_Read_loop out_Send pending readErr s in
    (sent s' = sent s ++ sentAll pending
     /\ err = if isEOF readErr then None else Some readErr)
    \/ exists k c e,
        nth_error pending k = Some c
        /\ sent s' = sent s ++ sentAll (firstn k pending) ++ [Sent c (Some e)]
        /\ err = Some e.
Proof.
  induction pending as [|readBuf pending IH]; intros s.
  - cbn [Server_Read_loop sentAll map].
    destruct (isEOF readErr); cbn; left; rewrite app_nil_r; split; reflexivity.
  - cbn [Server_Read_loop]. unfold bind, Send.
    destruct (out_Send readBuf (out s)) as [[e|] o].
    + cbn. right. exists 0%nat, readBuf, e. repeat split.
    + specialize (IH (mkReadServer o (sent s ++ [Sent readBuf None]))).
      destruct (Server_Read_loop out_Send pending readErr _) as [err s'].
      cbn [sent] in IH.
      destruct IH as [[HS HE] | (k & c & e & HN & HS & HE)].
      * left. split; [|exact HE].
        rewrite HS, <- app_assoc. reflexivity.
      * right. exists (S k), c, e. split; [exact HN|]. split; [|exact HE].
        rewrite HS, <- app_assoc. reflexivity.
Qed.

(** X11.  [byteStreamServer.Read] refuses a request with a read limit
    with Unimplemented, before it parses the name or touches the blob
    access or the stream.  Otherwise it sends the chunks of the chunk
    reader in order, one response per chunk: either all of them, and then
    it returns no error when the reader ended with [io.EOF] and the
    reader's error otherwise; or the chunks up to the first one whose
    [Send] fails, and then it returns the error of that [Send].  In both
    cases it then closes the reader, once. *)
Theorem Server_Read_sends_chunks_in_order (req : ReadRequest) (s : ReadServer) :
  (ReadLimit req <> 0 ->
   Server_Read NewDigestFromBytestreamPath blobAccess_Get_ToChunkReader
     out_Send readChunkSize req s
   = (Some (StatusError Unimplemented
              "This service does not support downloading partial files"), s))
  /\ (ReadLimit req = 0 ->
      forall digest,
        NewDigestFromBytestreamPath (ReadResourceName req) = Ok digest ->
        let r := blobAccess_Get_ToChunkReader digest (ReadOffset req)
                   readChunkSize in
        let '(err, s') :=
          Server_Read NewDigestFromBytestreamPath blobAccess_Get_ToChunkReader
            out_Send readChunkSize req s in
        (sent s' = sent s ++ sentAll (chunks r) ++ [ReaderClosed]
         /\ err = match ending r with EOF => None | e => Some e end)
        \/ exists k c e,
            nth_error (chunks r) k = Some c
            /\ sent s'
               = sent s ++ sentAll (firstn k (chunks r))
                 ++ [Sent c (Some e); ReaderClosed]
            /\ err = Some e).
Proof.
  split.
  - intros Hlimit. unfold Server_Read.
    destruct (Z.eqb_spec (ReadLimit req) 0) as [E|_]; [contradiction|].
    reflexivity.
  - intros Hlimit digest Hdigest r. unfold Server_Read.
    rewrite Hlimit, Hdigest. cbn [Z.eqb negb]. fold r. unfold bind.
    pose proof (Server_Read_loop_run (chunks r) (ending r) s) as L.
    destruct (Server_Read_loop out_Send (chunks r) (ending r) s) as [err s'].
    cbn [sent].
    destruct L as [[HS HE] | (k & c & e & HN & HS & HE)].
    + left. split.
      * rewrite HS, <- app_assoc. reflexivity.
      * rewrite HE. destruct (ending r); reflexivity.
    + right. exists k, c, e. split; [exact HN|]. split; [|exact HE].
      rewrite HS, <- !app_assoc. reflexivity.
Qed.

End ReadServer.

Lemma Server_Read_sends_chunks_in_order_witness :
  let '(err, s') :=
    Server_Read (fun _ => Ok (mkDigest "" "d41d" 3)) sampleReader sampleSend 1
      (mkReadRequest "blobs/d41d/3" 0 0) (mkReadServer 0%nat []) in
  (sent s' = [] ++ sentAll [[x68]; [x65]; [x6c]]%byte ++ [ReaderClosed]
   /\ err = None)
  \/ exists k c e,
      nth_error [[x68]; [x65]; [x6c]]%byte k = Some c
      /\ sent s'
         = [] ++ sentAll (firstn k [[x68]; [x65]; [x6c]]%byte)
           ++ [Sent c (Some e); ReaderClosed]
      /\ err = Some e.
Proof.
  destruct (Server_Read_sends_chunks_in_order
              (fun _ => Ok (mkDigest "" "d41d" 3)) sampleReader sampleSend 1
              (mkReadRequest "blobs/d41d/3" 0 0) (mkReadServer 0%nat []))
    as [_ H].
  exact (H eq_refl (mkDigest "" "d41d" 3) eq_refl).
Defined.

Example Server_Read_broken_stream :
  let '(err, s') :=
    Server_Read (fun _ => Ok (mkDigest "" "d41d" 3)) sampleReader sampleSend 1
      (mkReadRequest "blobs/d41d/3" 0 0) (mkReadServer 0%nat []) in
  err = Some (StatusError Unavailable "broken pipe")
  /\ sent s'
     = [Sent [x68]%byte None; Sent [x65]%byte None;
        Sent [x6c]%byte (Some (StatusError Unavailable "broken pipe"));
        ReaderClosed].
Proof. vm_compute. split; reflexivity. Qed.

End ByteStreamFacts.
(** ** The circular backend *)
Module CircularFacts.
Import Circular.

Section Backend.

Context {OS DS SS Buf R : Type}.
Context `{OffsetStore OS} `{DataStore DS Buf R} `{StateStore SS}.
Variable Contains : Cursors -> Z -> Z -> bool.
Variable GetSizeBytes : Buf -> Z * option error.

Abbreviation backend := (circularBlobAccess OS DS SS).

Lemma recordAll_nil (ba : backend) : recordAll [] ba = ba.
Proof. destruct ba. unfold recordAll. cbn. rewrite app_nil_r. reflexivity. Qed.

Lemma record_recordAll (e : Event) (es : list Event) (ba : backend) :
  record e (recordAll es ba) = recordAll (es ++ [e]) ba.
Proof. unfold record, recordAll. cbn. rewrite app_assoc. reflexivity. Qed.

(** What [Get] does, in one equation. *)
Lemma Get_run (digest : Digest) (ba : backend) :
  Get digest ba =
    let cursors := stateStore_GetCursors (stateStore ba) in
    let '((offset, length, ok, err), os) :=
      offsetStore_Get digest cursors (offsetStore ba) in
    let looked :=
      [Lock; GetCursors cursors; OffsetGet digest cursors offset length ok err;
       Unlock] in
    match err with
    | Some err =>
        (NewBufferFromError err, recordAll looked (withOffsetStore ba os))
    | None =>
        if ok then
          (NewBufferFromReader (storageType ba) digest
             (mkNopCloser (dataStore_Get offset length (dataStore ba)))
             (Reparable digest
                (lock_Lock ;;
                 err <- ba_stateStore_Invalidate offset length ;;
                 lock_Unlock ;;
                 ret err)),
           recordAll (looked ++ [DataGet offset length])
             (withOffsetStore ba os))
        else
          (NewBufferFromError blobNotFound,
           recordAll looked (withOffsetStore ba os))
    end.
Proof.
  unfold Get, bind, lock_Lock, lock_Unlock, emit, ba_stateStore_GetCursors,
    ba_offsetStore_Get, ba_dataStore_Get, ret.
  cbn [stateStore offsetStore record withOffsetStore].
  destruct (offsetStore_Get digest _ (offsetStore ba))
    as [[[[offset length] ok] err] os].
  destruct err as [err|]; [|destruct ok];
    unfold recordAll, record, withOffsetStore; cbn;
    rewrite <- ?app_assoc; reflexivity.
Qed.

Lemma Get_NotFound_iff (digest : Digest) (ba : backend) :
  lookupErr (lookup ba digest) = None ->
  fst (Get digest ba) = NewBufferFromError blobNotFound
  <-> lookupOk (lookup ba digest) = false.
Proof.
  unfold lookup, lookupOk, lookupErr. intros Herr.
  rewrite Get_run. cbv zeta.
  destruct (offsetStore_Get digest _ (offsetStore ba))
    as [[[[offset length] ok] err] os].
  cbn in Herr |- *. subst err.
  destruct ok; cbn; split; try discriminate; reflexivity.
Qed.

(** C5.  When the offset store reports the digest absent, without an
    error, [Get] returns the buffer made from the NotFound status "Blob not
    found"; an offset store that never stored the digest is one that
    reports it absent. *)
Theorem Get_absent_NotFound (digest : Digest) (ba : backend) :
  lookupOk (lookup ba digest) = false ->
  lookupErr (lookup ba digest) = None ->
  fst (Get digest ba) = NewBufferFromError (StatusError NotFound "Blob not found").
Proof.
  unfold lookup, lookupOk, lookupErr. intros Hok Herr.
  rewrite Get_run. cbv zeta.
  destruct (offsetStore_Get digest _ (offsetStore ba))
    as [[[[offset length] ok] err] os].
  cbn in Hok, Herr. subst ok err. reflexivity.
Qed.

(** C4.  When the offset store finds the digest at [(offset, length)],
    [Get] returns a buffer over the reader of that region of the data
    store, made with the repair strategy [Reparable]; its repair function
    takes the lock, calls [Invalidate] on the state store with the same
    [offset] and [length], returns its error and releases the lock. *)
Theorem Get_found_reparable (digest : Digest) (ba : backend)
    (offset length : Z) :
  lookup ba digest = (offset, length, true, None) ->
  exists repairFunc : RepairFunc,
    fst (Get digest ba)
    = NewBufferFromReader (storageType ba) digest
        (mkNopCloser (dataStore_Get offset length (dataStore ba)))
        (Reparable digest repairFunc)
    /\ forall ba' : backend,
        let '(err, ss) :=
          stateStore_Invalidate offset length (stateStore ba') in
        repairFunc ba'
        = (err,
           mkCircularBlobAccess (dataStore ba') (storageType ba')
             (offsetStore ba') ss
             (calls ba' ++ [Lock; Invalidate offset length err; Unlock])).
Proof.
  unfold lookup. intros Hl.
  rewrite Get_run. cbv zeta.
  destruct (offsetStore_Get digest _ (offsetStore ba)) as [res os].
  cbn in Hl. subst res. cbn [fst].
  eexists. split; [reflexivity|].
  intros ba'.
  unfold bind, lock_Lock, lock_Unlock, emit, ba_stateStore_Invalidate, ret.
  cbn [stateStore record].
  destruct (stateStore_Invalidate offset length (stateStore ba')) as [err ss].
  unfold record, withStateStore. cbn. rewrite <- !app_assoc. reflexivity.
Qed.

(** C1.  Once [Put] has allocated [offset] and written the bytes there,
    it takes the lock, reads the cursors and then: if the cursors still
    contain the region of [sizeBytes] bytes at [offset], it calls the
    offset store's [Put] for the digest at that region and returns its
    error; if they do not, it returns the error "Data became stale before
    write completed" and makes no call on the offset store, which stays as
    it was. *)
Theorem Put_inserts_iff_live
    (env1 env2 : backend -> backend) (digest : Digest) (b : Buf)
    (ba ba3 : backend) (sizeBytes offset : Z) :
  beforeCommit GetSizeBytes env1 env2 b ba = Some (sizeBytes, offset, ba3) ->
  let cursors := stateStore_GetCursors (stateStore ba3) in
  let '(err, ba4) := Put Contains GetSizeBytes env1 env2 digest b ba in
  if Contains cursors offset sizeBytes then
    err = fst (offsetStore_Put digest offset sizeBytes cursors (offsetStore ba3))
    /\ offsetStore ba4
       = snd (offsetStore_Put digest offset sizeBytes cursors (offsetStore ba3))
    /\ calls ba4
       = calls ba3 ++ [Lock; GetCursors cursors;
                       OffsetPut digest offset sizeBytes cursors err;
                       Unlock; Close]
  else
    err = Some (ErrorsNew "Data became stale before write completed")
    /\ offsetStore ba4 = offsetStore ba3
    /\ calls ba4 = calls ba3 ++ [Lock; GetCursors cursors; Unlock; Close].
Proof.
  intros E. unfold beforeCommit in E. unfold Put.
  destruct (GetSizeBytes b) as [size [e|]]; [discriminate|].
  unfold bind, lock_Lock, lock_Unlock, emit, concurrently, ret in *.
  destruct (ba_stateStore_Allocate size (record Lock ba)) as [[off [e|]] ba1];
    [discriminate|].
  destruct (ba_dataStore_Put b off (env1 (record Unlock ba1))) as [[e|] ba2];
    [discriminate|].
  injection E as -> -> <-.
  cbv zeta.
  unfold ba_stateStore_GetCursors, ba_offsetStore_Put.
  cbn [stateStore offsetStore record].
  destruct (Contains _ offset sizeBytes).
  - unfold record, withOffsetStore. cbn.
    destruct (offsetStore_Put digest offset sizeBytes _ (offsetStore (env2 ba2)))
      as [err os].
    cbn. rewrite <- !app_assoc. auto.
  - unfold record. cbn. rewrite <- !app_assoc. auto.
Qed.

Lemma FindMissing_loop_run (ba : backend) (digests : list Digest) :
  readOnlyLookups ->
  forall (missingDigests : list Digest) (es : list Event),
    FindMissing_loop (stateStore_GetCursors (stateStore ba)) digests
      missingDigests (recordAll es ba)
    = (match snd (scan ba digests) with
       | Some err => Err err
       | None => Ok (missingDigests ++ filter (reportedAbsent ba) digests)
       end,
       recordAll (es ++ map (probe ba) (fst (scan ba digests))) ba).
Proof.
  intros Hro.
  induction digests as [|digest digests IH]; intros missingDigests es.
  - cbn. rewrite !app_nil_r. reflexivity.
  - cbn [FindMissing_loop scan filter].
    unfold bind, ba_offsetStore_Get.
    cbn [offsetStore recordAll].
    change (reportedAbsent ba digest)
      with (negb (lookupOk (lookup ba digest))).
    assert (Hp : probe ba digest
                 = let '(offset, length, ok, err) := lookup ba digest in
                   OffsetGet digest (stateStore_GetCursors (stateStore ba))
                     offset length ok err) by reflexivity.
    assert (Hl : lookup ba digest
                 = fst (offsetStore_Get digest
                          (stateStore_GetCursors (stateStore ba))
                          (offsetStore ba))) by reflexivity.
    pose proof (Hro digest (stateStore_GetCursors (stateStore ba))
                  (offsetStore ba)) as Hos.
    destruct (offsetStore_Get digest _ (offsetStore ba))
      as [[[[offset length] ok] err] os].
    cbn [fst snd] in Hos, Hl. subst os. rewrite Hl in Hp |- *. clear Hl.
    replace (withOffsetStore _ (offsetStore ba)) with (recordAll es ba)
      by (destruct ba; reflexivity).
    rewrite record_recordAll.
    cbn [lookupErr lookupOk fst snd].
    destruct err as [err|].
    + cbn [fst snd map]. rewrite Hp. reflexivity.
    + destruct (scan ba digests) as [probed r] eqn:S.
      destruct ok; cbn [negb];
        rewrite IH, ?S; cbn [fst snd map]; rewrite Hp;
        rewrite <- !app_assoc; reflexivity.
Qed.

Lemma scan_all (ba : backend) (digests : list Digest) :
  (forall d, In d digests -> lookupErr (lookup ba d) = None) ->
  scan ba digests = (digests, None).
Proof.
  induction digests as [|d digests IH]; intros Hall; cbn [scan].
  - reflexivity.
  - rewrite (Hall d) by (left; reflexivity).
    rewrite IH by (intros; apply Hall; right; assumption).
    reflexivity.
Qed.

Lemma scan_first_error (ba : backend) (before after : list Digest)
    (d : Digest) (err : error) :
  (forall d', In d' before -> lookupErr (lookup ba d') = None) ->
  lookupErr (lookup ba d) = Some err ->
  scan ba (before ++ d :: after) = (before ++ [d], Some err).
Proof.
  induction before as [|a before IH]; intros Hall Herr; cbn [app scan].
  - rewrite Herr. reflexivity.
  - rewrite (Hall a) by (left; reflexivity).
    rewrite IH by (auto; intros; apply Hall; right; assumption).
    reflexivity.
Qed.

Lemma FindMissing_run (ba : backend) (digests : list Digest) :
  readOnlyLookups ->
  FindMissing digests ba
  = (match snd (scan ba digests) with
     | Some err => Err err
     | None => Ok (filter (reportedAbsent ba) digests)
     end,
     recordAll
       ([Lock; GetCursors (stateStore_GetCursors (stateStore ba))]
        ++ map (probe ba) (fst (scan ba digests)) ++ [Unlock]) ba).
Proof.
  intros Hro. unfold FindMissing.
  unfold bind at 1. unfold lock_Lock at 1, emit.
  unfold bind at 1. unfold ba_stateStore_GetCursors.
  cbn [stateStore record].
  unfold bind at 1.
  replace (record _ (record Lock ba))
    with (recordAll [Lock; GetCursors (stateStore_GetCursors (stateStore ba))] ba)
    by (unfold record, recordAll; cbn; rewrite <- app_assoc; reflexivity).
  rewrite (FindMissing_loop_run ba digests Hro).
  unfold bind, lock_Unlock, emit, ret.
  rewrite record_recordAll, <- !app_assoc. reflexivity.
Qed.

(** C2.  With lookups that leave the offset store as it is, [FindMissing]
    takes the lock, reads the cursors once, looks every digest up against
    these cursors and the same offset store, and releases the lock.  When
    no lookup fails it returns the digests whose lookup reports them absent
    (in the order given), which are the digests for which [Get] in the same
    state returns the NotFound buffer; when a lookup fails, it returns the
    error of the first one that does. *)
Theorem FindMissing_exact (ba : backend) (digests : list Digest) :
  readOnlyLookups ->
  let cursors := stateStore_GetCursors (stateStore ba) in
  (exists probed,
      calls (snd (FindMissing digests ba))
      = calls ba ++ [Lock; GetCursors cursors] ++ map (probe ba) probed ++ [Unlock]
      /\ offsetStore (snd (FindMissing digests ba)) = offsetStore ba)
  /\ ((forall d, In d digests -> lookupErr (lookup ba d) = None) ->
      fst (FindMissing digests ba)
      = Ok (filter (fun d => negb (lookupOk (lookup ba d))) digests)
      /\ forall d,
          In d (filter (fun d => negb (lookupOk (lookup ba d))) digests)
          <-> In d digests
              /\ fst (Get d ba) = NewBufferFromError blobNotFound)
  /\ (forall before d after err,
        digests = before ++ d :: after ->
        (forall d', In d' before -> lookupErr (lookup ba d') = None) ->
        lookupErr (lookup ba d) = Some err ->
        fst (FindMissing digests ba) = Err err).
Proof.
  intros Hro cursors.
  rewrite (FindMissing_run ba digests Hro).
  cbn [fst snd]. split; [|split].
  - exists (fst (scan ba digests)). split; reflexivity.
  - intros Hall. split.
    + rewrite (scan_all ba digests Hall). reflexivity.
    + intros d. rewrite filter_In. split.
      * intros [I A]. split; [exact I|].
        apply Get_NotFound_iff; [auto|].
        apply negb_true_iff. exact A.
      * intros [I G]. split; [exact I|].
        apply negb_true_iff. apply Get_NotFound_iff; auto.
  - intros before d after err -> Hall Herr.
    rewrite (scan_first_error ba before after d err Hall Herr). reflexivity.
Qed.

(** *** Further properties of the three methods *)

Lemma subseq_nil_l {A : Type} (l : list A) : subseq [] l.
Proof. induction l; constructor; assumption. Qed.

Lemma lockAfter_app (held : bool) (es1 es2 : list Event) :
  lockAfter held (es1 ++ es2)
  = match lockAfter held es1 with
    | Some held' => lockAfter held' es2
    | None => None
    end.
Proof.
  revert held. induction es1 as [|e es1 IH]; intros held; [reflexivity|].
  destruct e, held; cbn; auto.
Qed.

Lemma lockAfter_lookups (es : list Event) :
  forallb isLookup es = true -> lockAfter true es = Some true.
Proof.
  induction es as [|e es IH]; intros Hall; [reflexivity|].
  cbn in Hall. apply andb_true_iff in Hall as [He Hes].
  destruct e; try discriminate. cbn. auto.
Qed.

(** What the loop of [FindMissing] does with any offset store. *)
Lemma FindMissing_loop_any (cursors : Cursors) (digests : list Digest) :
  forall (missingDigests : list Digest) (ba : backend),
    let '(result, ba') :=
      FindMissing_loop cursors digests missingDigests ba in
    dataStore ba' = dataStore ba
    /\ stateStore ba' = stateStore ba
    /\ storageType ba' = storageType ba
    /\ exists es,
        calls ba' = calls ba ++ es
        /\ forallb isLookup es = true
        /\ (List.length es <= List.length digests)%nat
        /\ match result with
           | Ok missing =>
               exists found,
                 missing = missingDigests ++ found /\ subseq found digests
           | Err _ => True
           end.
Proof.
  induction digests as [|digest digests IH]; intros missingDigests ba.
  - cbn. repeat split. exists []. rewrite !app_nil_r.
    repeat split; auto. exists []. rewrite app_nil_r. split; constructor.
  - cbn [FindMissing_loop]. unfold bind, ba_offsetStore_Get.
    destruct (offsetStore_Get digest cursors (offsetStore ba))
      as [[[[offset length] ok] err] os].
    set (ba1 := record _ (withOffsetStore ba os)).
    destruct err as [err|].
    + cbn. repeat split. eexists. split; [reflexivity|]. cbn.
      repeat split; auto. lia.
    + destruct ok; cbn [negb].
      * specialize (IH missingDigests ba1).
        destruct (FindMissing_loop cursors digests missingDigests ba1)
          as [result ba'].
        destruct IH as (D & S & T & es & C & L & N & Res).
        repeat split; auto.
        eexists. split; [rewrite C; cbn; rewrite <- app_assoc; reflexivity|].
        cbn. repeat split; auto; [lia|].
        destruct result as [missing|e]; [|exact I].
        destruct Res as (found & -> & Sub).
        exists found. split; [reflexivity|]. apply subseq_skip. exact Sub.
      * specialize (IH (missingDigests ++ [digest]) ba1).
        destruct (FindMissing_loop cursors digests (missingDigests ++ [digest]) ba1)
          as [result ba'].
        destruct IH as (D & S & T & es & C & L & N & Res).
        repeat split; auto.
        eexists. split; [rewrite C; cbn; rewrite <- app_assoc; reflexivity|].
        cbn. repeat split; auto; [lia|].
        destruct result as [missing|e]; [|exact I].
        destruct Res as (found & -> & Sub).
        exists (digest :: found). split.
        -- rewrite <- app_assoc. reflexivity.
        -- apply subseq_keep. exact Sub.
Qed.

Lemma FindMissing_any (digests : list Digest) (ba : backend) :
  let '(result, ba') := FindMissing digests ba in
  dataStore ba' = dataStore ba
  /\ stateStore ba' = stateStore ba
  /\ exists es,
      calls ba'
      = calls ba
        ++ Lock :: GetCursors (stateStore_GetCursors (stateStore ba)) :: es
        ++ [Unlock]
      /\ forallb isLookup es = true
      /\ (List.length es <= List.length digests)%nat
      /\ match result with
         | Ok missing => subseq missing digests
         | Err _ => True
         end.
Proof.
  unfold FindMissing, bind, lock_Lock, lock_Unlock, emit,
    ba_stateStore_GetCursors, ret.
  cbn [stateStore record].
  set (ba1 := record _ (record Lock ba)).
  pose proof (FindMissing_loop_any (stateStore_GetCursors (stateStore ba))
                digests [] ba1) as L.
  destruct (FindMissing_loop _ digests [] ba1) as [result ba'].
  destruct L as (D & S & T & es & C & Look & N & Res).
  cbn [dataStore stateStore record calls].
  repeat split; auto.
  exists es. split.
  - rewrite C. unfold ba1, record. cbn. rewrite <- !app_assoc. reflexivity.
  - repeat split; auto.
    destruct result as [missing|e]; [|exact I].
    destruct Res as (found & -> & Sub). exact Sub.
Qed.

(** What [Put] does once it takes the lock for the second time. *)
Lemma Put_commit_run (env1 env2 : backend -> backend) (digest : Digest)
    (b : Buf) (ba ba3 : backend) (sizeBytes offset : Z) :
  beforeCommit GetSizeBytes env1 env2 b ba = Some (sizeBytes, offset, ba3) ->
  Put Contains GetSizeBytes env1 env2 digest b ba
  = let cursors := stateStore_GetCursors (stateStore ba3) in
    if Contains cursors offset sizeBytes then
      let '(err, os) :=
        offsetStore_Put digest offset sizeBytes cursors (offsetStore ba3) in
      (err,
       recordAll [Lock; GetCursors cursors;
                  OffsetPut digest offset sizeBytes cursors err; Unlock; Close]
         (withOffsetStore ba3 os))
    else
      (Some staleData, recordAll [Lock; GetCursors cursors; Unlock; Close] ba3).
Proof.
  intros E. unfold beforeCommit in E. unfold Put.
  destruct (GetSizeBytes b) as [size [e|]]; [discriminate|].
  unfold bind, lock_Lock, lock_Unlock, emit, concurrently, ret in *.
  destruct (ba_stateStore_Allocate size (record Lock ba)) as [[off [e|]] ba1];
    [discriminate|].
  destruct (ba_dataStore_Put b off (env1 (record Unlock ba1))) as [[e|] ba2];
    [discriminate|].
  injection E as -> -> <-.
  cbv zeta.
  unfold ba_stateStore_GetCursors, ba_offsetStore_Put.
  cbn [stateStore offsetStore record].
  destruct (Contains _ offset sizeBytes).
  - unfold record, recordAll, withOffsetStore. cbn.
    destruct (offsetStore_Put digest offset sizeBytes _ (offsetStore (env2 ba2)))
      as [err os].
    cbn. rewrite <- !app_assoc. reflexivity.
  - unfold record, recordAll. cbn. rewrite <- !app_assoc. reflexivity.
Qed.

(** What [Put] does when it does not get that far. *)
Lemma Put_early_run (env1 env2 : backend -> backend) (digest : Digest)
    (b : Buf) (ba : backend) :
  beforeCommit GetSizeBytes env1 env2 b ba = None ->
  let sizeBytes := fst (GetSizeBytes b) in
  let allocated := stateStore_Allocate sizeBytes (stateStore ba) in
  let offset := fst (fst allocated) in
  let ba1 :=
    recordAll [Lock; Allocate sizeBytes offset (snd (fst allocated)); Unlock]
      (withStateStore ba (snd allocated)) in
  let written := dataStore_Put b offset (dataStore (env1 ba1)) in
  exists err,
    Put Contains GetSizeBytes env1 env2 digest b ba
    = (Some err,
       match snd (GetSizeBytes b) with
       | Some _ => recordAll [Discard] ba
       | None =>
           match snd (fst allocated) with
           | Some _ => recordAll [Close] ba1
           | None =>
               recordAll [DataPut offset (fst written); Close]
                 (withDataStore (env1 ba1) (snd written))
           end
       end).
Proof.
  intros E. unfold beforeCommit in E. unfold Put.
  destruct (GetSizeBytes b) as [size [e|]]; cbn [fst snd].
  { exists e. unfold bind, emit, ret, record, recordAll. reflexivity. }
  unfold bind, lock_Lock, lock_Unlock, emit, concurrently, ret in *.
  unfold ba_stateStore_Allocate in *. cbn [stateStore record] in *.
  destruct (stateStore_Allocate size (stateStore ba)) as [[off aerr] ss].
  cbn [fst snd] in *.
  replace (record Unlock (record (Allocate size off aerr)
                            (withStateStore (record Lock ba) ss)))
    with (recordAll [Lock; Allocate size off aerr; Unlock]
            (withStateStore ba ss)) in *
    by (unfold record, recordAll, withStateStore; cbn;
        rewrite <- !app_assoc; reflexivity).
  destruct aerr as [e|].
  { exists e. unfold record, recordAll. cbn. rewrite <- !app_assoc.
    reflexivity. }
  unfold ba_dataStore_Put in *.
  destruct (dataStore_Put b off (dataStore (env1 _))) as [[e|] ds];
    [|discriminate].
  exists e. unfold record, recordAll, withDataStore. cbn.
  rewrite <- !app_assoc. reflexivity.
Qed.

Lemma beforeCommit_calls (env1 env2 : backend -> backend) (b : Buf)
    (ba ba3 : backend) (sizeBytes offset : Z) :
  (forall x, calls (env1 x) = calls x) ->
  (forall x, calls (env2 x) = calls x) ->
  beforeCommit GetSizeBytes env1 env2 b ba = Some (sizeBytes, offset, ba3) ->
  calls ba3
  = calls ba ++ [Lock; Allocate sizeBytes offset None; Unlock;
                 DataPut offset None].
Proof.
  intros He1 He2 E. unfold beforeCommit in E.
  destruct (GetSizeBytes b) as [size [e|]]; [discriminate|].
  unfold bind, lock_Lock, lock_Unlock, emit, ret in E.
  unfold ba_stateStore_Allocate in E. cbn [stateStore record] in E.
  destruct (stateStore_Allocate size (stateStore ba)) as [[off [e|]] ss];
    [discriminate|].
  unfold ba_dataStore_Put in E.
  destruct (dataStore_Put b off (dataStore (env1 _))) as [[e|] ds];
    [discriminate|].
  injection E as <- <- <-.
  rewrite He2. unfold record at 1. cbn [calls withDataStore].
  rewrite He1. unfold record, withStateStore. cbn.
  rewrite <- !app_assoc. reflexivity.
Qed.

(** X1.  The locking discipline.  The calls that [Get], [FindMissing] and
    [Put] add to the history take the lock only when it is free, release
    it only when it is held, use the offset store and the state store only
    while holding it and the data store only while not holding it, and
    leave the lock released on every return, also on the error paths.
    For [Put], the steps of the other goroutines are steps that add no call
    to this history. *)
Theorem lock_discipline :
  (forall (digest : Digest) (ba : backend),
      exists es,
        calls (snd (Get digest ba)) = calls ba ++ es
        /\ lockAfter false es = Some false)
  /\ (forall (digests : list Digest) (ba : backend),
        exists es,
          calls (snd (FindMissing digests ba)) = calls ba ++ es
          /\ lockAfter false es = Some false)
  /\ (forall (env1 env2 : backend -> backend) (digest : Digest) (b : Buf)
            (ba : backend),
        (forall x, calls (env1 x) = calls x) ->
        (forall x, calls (env2 x) = calls x) ->
        exists es,
          calls (snd (Put Contains GetSizeBytes env1 env2 digest b ba))
          = calls ba ++ es
          /\ lockAfter false es = Some false).
Proof.
  split; [|split].
  - intros digest ba. rewrite Get_run. cbv zeta.
    destruct (offsetStore_Get digest _ (offsetStore ba))
      as [[[[offset length] ok] err] os].
    destruct err as [err|]; [|destruct ok];
      cbn [snd recordAll calls withOffsetStore];
      eexists; (split; [reflexivity|reflexivity]).
  - intros digests ba.
    pose proof (FindMissing_any digests ba) as F.
    destruct (FindMissing digests ba) as [result ba'].
    destruct F as (_ & _ & es & C & Look & _ & _).
    cbn [snd]. eexists. split; [exact C|].
    cbn [lockAfter]. change (GetCursors ?c :: es ++ [Unlock])
      with ([GetCursors c] ++ es ++ [Unlock]).
    rewrite !lockAfter_app. cbn [lockAfter needsLock negb andb isDataCall].
    rewrite (lockAfter_lookups es Look). reflexivity.
  - intros env1 env2 digest b ba He1 He2.
    destruct (beforeCommit GetSizeBytes env1 env2 b ba)
      as [[[sizeBytes offset] ba3]|] eqn:E.
    + rewrite (Put_commit_run env1 env2 digest b ba ba3 sizeBytes offset E).
      pose proof (beforeCommit_calls env1 env2 b ba ba3 sizeBytes offset
                    He1 He2 E) as C.
      cbv zeta. destruct (Contains _ offset sizeBytes).
      * destruct (offsetStore_Put digest offset sizeBytes _ (offsetStore ba3))
          as [err os].
        cbn [snd recordAll calls withOffsetStore]. rewrite C, <- app_assoc.
        eexists. split; reflexivity.
      * cbn [snd recordAll calls]. rewrite C, <- app_assoc.
        eexists. split; reflexivity.
    + destruct (Put_early_run env1 env2 digest b ba E) as [err ->].
      cbn [snd].
      destruct (snd (GetSizeBytes b)).
      * eexists. split; reflexivity.
      * destruct (snd (fst (stateStore_Allocate _ (stateStore ba)))).
        -- cbn [recordAll calls withStateStore]. rewrite <- app_assoc.
           eexists. split; reflexivity.
        -- cbn [recordAll calls withDataStore]. rewrite He1.
           cbn [recordAll calls withStateStore]. rewrite <- app_assoc.
           eexists. split; reflexivity.
Qed.

(** X2.  A [Put] that returns before its second critical section, because
    the size of the buffer cannot be had, the allocation fails or writing
    the bytes fails, returns an error and leaves the offset store as it
    was, provided the other goroutines left it alone meanwhile. *)
Theorem Put_failure_keeps_offsetStore
    (env1 env2 : backend -> backend) (digest : Digest) (b : Buf)
    (ba : backend) :
  (forall x, offsetStore (env1 x) = offsetStore x) ->
  beforeCommit GetSizeBytes env1 env2 b ba = None ->
  (exists err,
      fst (Put Contains GetSizeBytes env1 env2 digest b ba) = Some err)
  /\ offsetStore (snd (Put Contains GetSizeBytes env1 env2 digest b ba))
     = offsetStore ba.
Proof.
  intros He1 E.
  destruct (Put_early_run env1 env2 digest b ba E) as [err ->].
  split; [exists err; reflexivity|].
  cbn [snd].
  destruct (snd (GetSizeBytes b)); [reflexivity|].
  destruct (snd (fst (stateStore_Allocate _ (stateStore ba))));
    [reflexivity|].
  cbn [recordAll offsetStore withDataStore]. rewrite He1. reflexivity.
Qed.

(** X3.  [Get] and [FindMissing] only read: whatever the offset store
    answers, they leave the data store and the state store (the cursors)
    as they were. *)
Theorem Get_FindMissing_read_only (ba : backend) :
  (forall digest,
      dataStore (snd (Get digest ba)) = dataStore ba
      /\ stateStore (snd (Get digest ba)) = stateStore ba)
  /\ (forall digests,
        dataStore (snd (FindMissing digests ba)) = dataStore ba
        /\ stateStore (snd (FindMissing digests ba)) = stateStore ba).
Proof.
  split.
  - intros digest. rewrite Get_run. cbv zeta.
    destruct (offsetStore_Get digest _ (offsetStore ba))
      as [[[[offset length] ok] err] os].
    destruct err as [err|]; [|destruct ok]; split; reflexivity.
  - intros digests.
    pose proof (FindMissing_any digests ba) as F.
    destruct (FindMissing digests ba) as [result ba'].
    destruct F as (D & S & _). split; assumption.
Qed.

(** X4.  For any offset store, the digests [FindMissing] returns are
    digests of its input, in the order of the input, and it makes at most
    one lookup per digest of the input, all between one [Lock] and one
    [Unlock]. *)
Theorem FindMissing_subsequence (digests : list Digest) (ba : backend) :
  match fst (FindMissing digests ba) with
  | Ok missing => subseq missing digests
  | Err _ => True
  end
  /\ exists es,
      calls (snd (FindMissing digests ba))
      = calls ba
        ++ Lock :: GetCursors (stateStore_GetCursors (stateStore ba)) :: es
        ++ [Unlock]
      /\ forallb isLookup es = true
      /\ (List.length es <= List.length digests)%nat.
Proof.
  pose proof (FindMissing_any digests ba) as F.
  destruct (FindMissing digests ba) as [result ba'].
  destruct F as (_ & _ & es & C & Look & N & Res).
  cbn [fst snd]. split; [exact Res|].
  exists es. auto.
Qed.

(** X5.  [Get] after [Put].  With an offset store in which a lookup finds
    what was just put: when [Put] returns without an error, a [Get] of the
    same digest in the state it leaves returns a reparable buffer over the
    reader of the data store for the region that [Put] allocated and wrote,
    [sizeBytes] bytes at [offset]. *)
Theorem Put_then_Get
    (env1 env2 : backend -> backend) (digest : Digest) (b : Buf)
    (ba ba3 : backend) (sizeBytes offset : Z) :
  putGetLaw Contains ->
  beforeCommit GetSizeBytes env1 env2 b ba = Some (sizeBytes, offset, ba3) ->
  fst (Put Contains GetSizeBytes env1 env2 digest b ba) = None ->
  let ba4 := snd (Put Contains GetSizeBytes env1 env2 digest b ba) in
  exists repairFunc : RepairFunc,
    fst (Get digest ba4)
    = NewBufferFromReader (storageType ba3) digest
        (mkNopCloser (dataStore_Get offset sizeBytes (dataStore ba3)))
        (Reparable digest repairFunc).
Proof.
  intros Law E. rewrite (Put_commit_run env1 env2 digest b ba ba3 _ _ E).
  cbv zeta.
  destruct (Contains _ offset sizeBytes) eqn:Live; [|discriminate].
  pose proof (Law digest offset sizeBytes
                (stateStore_GetCursors (stateStore ba3)) (offsetStore ba3))
    as L.
  destruct (offsetStore_Put digest offset sizeBytes _ (offsetStore ba3))
    as [err os].
  cbn [fst snd] in *. intros ->. specialize (L eq_refl Live).
  rewrite Get_run. cbv zeta.
  cbn [stateStore offsetStore recordAll withOffsetStore dataStore storageType].
  destruct (offsetStore_Get digest _ os) as [res os'].
  cbn [fst] in L. subst res. cbn [fst].
  eexists. reflexivity.
Qed.

End Backend.

(** *** The model of the stores *)

Lemma readOnlyLookups_model : readOnlyLookups (OS := OffsetFile).
Proof.
  intros digest c os. cbn.
  destruct (OffsetFile_find digest os) as [[offset length]|]; [|reflexivity].
  destruct (Contains_model c offset length); reflexivity.
Qed.

(** A model backend whose offset file has no entry for the digest answers
    NotFound; this is so for the empty backend, and stays so when other
    digests are put. *)
Lemma Get_never_stored (digest : Digest) (ba : Backend_model) :
  OffsetFile_find digest (offsetStore ba) = None ->
  fst (Get digest ba) = NewBufferFromError blobNotFound.
Proof.
  intros N. rewrite Get_run. cbn. rewrite N. reflexivity.
Qed.

Lemma OffsetFile_find_Put_other (digest other : Digest) (offset length : Z)
    (c : Cursors) (os : OffsetFile) :
  other <> digest ->
  OffsetFile_find digest (snd (offsetStore_Put other offset length c os))
  = OffsetFile_find digest os.
Proof.
  intros N. cbn.
  destruct (Digest_eqb other digest) eqn:E; [|reflexivity].
  apply Digest_eqb_eq in E. contradiction.
Qed.

Lemma lookupErr_model (ba : Backend_model) (digest : Digest) :
  lookupErr (lookup ba digest) = None.
Proof.
  unfold lookupErr, lookup. cbn.
  destruct (OffsetFile_find digest (offsetStore ba)) as [[offset length]|];
    [|reflexivity].
  destruct (Contains_model _ offset length); reflexivity.
Qed.

Lemma Put_inserts_iff_live_witness :
  fst (Put Contains_model GetSizeBytes_model otherPut quiet
         sampleDigest sampleBlob emptyBackend)
  = Some (ErrorsNew "Data became stale before write completed")
  /\ fst (Put Contains_model GetSizeBytes_model quiet quiet
            sampleDigest sampleBlob emptyBackend)
     = None.
Proof.
  pose proof (Put_inserts_iff_live Contains_model GetSizeBytes_model
                otherPut quiet sampleDigest sampleBlob emptyBackend
                contendedBackend 5 0 eq_refl) as Stale.
  pose proof (Put_inserts_iff_live Contains_model GetSizeBytes_model
                quiet quiet sampleDigest sampleBlob emptyBackend
                uncontendedBackend 5 0 eq_refl) as Live.
  vm_compute in Stale, Live. vm_compute.
  exact (conj (proj1 Stale) (proj1 Live)).
Defined.

Lemma FindMissing_exact_witness :
  fst (FindMissing [sampleDigest; otherDigest] storedBackend)
  = Ok [otherDigest].
Proof.
  destruct (FindMissing_exact storedBackend [sampleDigest; otherDigest]
              readOnlyLookups_model) as (_ & Found & _).
  destruct Found as [E _].
  - intros d _. apply lookupErr_model.
  - rewrite E. vm_compute. reflexivity.
Defined.

Lemma Get_found_reparable_witness :
  exists repairFunc : RepairFunc,
    fst (Get sampleDigest storedBackend)
    = NewBufferFromReader CASStorageType sampleDigest
        (mkNopCloser sampleBlob) (Reparable sampleDigest repairFunc)
    /\ stateStore_GetCursors (stateStore (snd (repairFunc storedBackend)))
       = mkCursors 5 5.
Proof.
  assert (L : lookup storedBackend sampleDigest = (0, 5, true, None))
    by reflexivity.
  destruct (Get_found_reparable sampleDigest storedBackend 0 5 L)
    as (repairFunc & G & Repair).
  exists repairFunc. split; [exact G|].
  specialize (Repair storedBackend). cbn in Repair.
  rewrite Repair. reflexivity.
Defined.

Lemma Get_absent_NotFound_witness :
  fst (Get sampleDigest emptyBackend)
  = NewBufferFromError (StatusError NotFound "Blob not found").
Proof.
  apply (Get_absent_NotFound sampleDigest emptyBackend); reflexivity.
Defined.

Lemma putGetLaw_model : putGetLaw (OS := OffsetFile) Contains_model.
Proof.
  intros digest offset length c os _ Live. cbn.
  rewrite Digest_eqb_refl, Live. reflexivity.
Qed.

Lemma lock_discipline_witness :
  exists es,
    calls (snd (Put Contains_model GetSizeBytes_model otherPutStores quiet
                  sampleDigest sampleBlob emptyBackend))
    = es
    /\ lockAfter false es = Some false.
Proof.
  destruct (lock_discipline (OS := OffsetFile) (DS := DataFile)
              (SS := StateFile) (R := list byte)
              Contains_model GetSizeBytes_model) as (_ & _ & P).
  destruct (P otherPutStores quiet sampleDigest sampleBlob emptyBackend)
    as (es & C & L).
  - intros x. reflexivity.
  - intros x. reflexivity.
  - exists es. split; [exact C | exact L].
Defined.

Lemma Put_failure_keeps_offsetStore_witness :
  offsetStore (snd (Put Contains_model GetSizeBytes_unknown quiet quiet
                      otherDigest otherBlob storedBackend))
  = offsetStore storedBackend.
Proof.
  apply (Put_failure_keeps_offsetStore Contains_model GetSizeBytes_unknown
           quiet quiet otherDigest otherBlob storedBackend).
  - intros x. reflexivity.
  - reflexivity.
Defined.

Lemma Put_then_Get_witness :
  exists repairFunc : RepairFunc,
    fst (Get sampleDigest
           (snd (Put Contains_model GetSizeBytes_model quiet quiet
                   sampleDigest sampleBlob emptyBackend)))
    = NewBufferFromReader CASStorageType sampleDigest
        (mkNopCloser sampleBlob) (Reparable sampleDigest repairFunc).
Proof.
  assert (E : beforeCommit GetSizeBytes_model quiet quiet sampleBlob emptyBackend
              = Some (5, 0, uncontendedBackend)) by reflexivity.
  assert (P : fst (Put Contains_model GetSizeBytes_model quiet quiet
                     sampleDigest sampleBlob emptyBackend) = None)
    by reflexivity.
  destruct (Put_then_Get Contains_model GetSizeBytes_model quiet quiet
              sampleDigest sampleBlob emptyBackend uncontendedBackend 5 0
              putGetLaw_model E P) as [repairFunc G].
  exists repairFunc. exact G.
Defined.

Example Get_after_Put :
  fst (FindMissing [sampleDigest] emptyBackend) = Ok [sampleDigest]
  /\ fst (FindMissing [sampleDigest] storedBackend) = Ok [].
Proof. split; vm_compute; reflexivity. Qed.

End CircularFacts.
(** ** The HTTP remote backend *)
Module RemoteFacts.
Import Remote.

Section Backend.

Context {C Buf RBody F : Type}.
Context `{HTTPClient C Buf RBody}.
Variable url_Parse : string -> option error.
Variable http_StatusText : Z -> string.
Variable GetSizeBytes : Buf -> Z * option error.

Abbreviation backend := (remoteBlobAccess C Buf RBody).

Lemma record_recordAll_remote (e : Event Buf RBody) (es : list (Event Buf RBody))
    (ba : backend) :
  record e (recordAll es ba) = recordAll (es ++ [e]) ba.
Proof. unfold record, recordAll. cbn. rewrite app_assoc. reflexivity. Qed.

Lemma ctxhttp_Head_safe (ba : backend) (digest : Digest)
    (es : list (Event Buf RBody)) :
  safeHeads ->
  url_Parse (blobURL ba digest) = None ->
  ctxhttp_Head url_Parse (blobURL ba digest) (recordAll es ba)
  = (head ba digest,
     recordAll (es ++ [Do (headRequest ba digest) (head ba digest)]) ba).
Proof.
  intros Hsafe Hurl.
  unfold ctxhttp_Head, http_NewRequest. rewrite Hurl.
  unfold ctxhttp_Do, head, headRequest. cbn [client recordAll].
  pose proof (Hsafe (blobURL ba digest) (client ba)) as Hc.
  destruct (client_Do _ (client ba)) as [resp c]. cbn in Hc. subst c.
  cbn [fst]. f_equal.
  unfold record, recordAll. cbn. rewrite app_assoc. reflexivity.
Qed.

Lemma HEAD_loop_run (ba : backend) (digests : list Digest) :
  safeHeads ->
  forall (missing : list Digest) (es : list (Event Buf RBody)),
    FindMissing_loop url_Parse http_StatusText digests missing (recordAll es ba)
    = (match snd (scan url_Parse http_StatusText ba digests) with
       | Some err => Err err
       | None =>
           Ok (missing
               ++ filter (fun d => isMissing (verdict url_Parse http_StatusText ba d))
                    digests)
       end,
       recordAll
         (es ++ flat_map (probe url_Parse ba)
                  (fst (scan url_Parse http_StatusText ba digests)))
         ba).
Proof.
  intros Hsafe.
  induction digests as [|digest digests IH]; intros missing es.
  - cbn. rewrite !app_nil_r. reflexivity.
  - cbn [FindMissing_loop scan filter].
    cbn [address prefix recordAll].
    change (Sprintf_url (address ba) (prefix ba) (hashString digest))
      with (blobURL ba digest).
    unfold bind.
    assert (Hv : verdict url_Parse http_StatusText ba digest
                 = match url_Parse (blobURL ba digest) with
                   | Some err => Failed err
                   | None =>
                       match head ba digest with
                       | Err err => Failed err
                       | Ok resp =>
                           if StatusCode resp =? StatusNotFound then Missing
                           else if StatusCode resp =? StatusOK then Present
                           else Failed
                                  (convertHTTPUnexpectedStatus http_StatusText resp)
                       end
                   end) by reflexivity.
    assert (Hp : probe url_Parse ba digest
                 = match url_Parse (blobURL ba digest) with
                   | Some _ => []
                   | None => [Do (headRequest ba digest) (head ba digest)]
                   end) by reflexivity.
    destruct (url_Parse (blobURL ba digest)) as [err|] eqn:Hurl.
    + unfold ctxhttp_Head, http_NewRequest. rewrite Hurl, Hv.
      cbn [failure ret fst snd flat_map]. rewrite Hp, !app_nil_r. reflexivity.
    + rewrite (ctxhttp_Head_safe ba digest es Hsafe Hurl).
      destruct (head ba digest) as [resp|err] eqn:Hhead.
      2:{ rewrite Hv. cbn [failure ret fst snd flat_map].
          rewrite Hp, app_nil_r. reflexivity. }
      destruct (scan url_Parse http_StatusText ba digests) as [probed r] eqn:S.
      rewrite Hv.
      destruct (StatusCode resp =? StatusNotFound);
        [|destruct (StatusCode resp =? StatusOK)];
        cbn [failure isMissing fst snd flat_map ret];
        rewrite ?IH, ?S; cbn [fst snd]; rewrite Hp;
        rewrite <- ?app_assoc, ?app_nil_r; reflexivity.
Qed.

Lemma scan_all_answered (ba : backend) (digests : list Digest) :
  (forall d, In d digests ->
     failure (verdict url_Parse http_StatusText ba d) = None) ->
  scan url_Parse http_StatusText ba digests = (digests, None).
Proof.
  induction digests as [|d digests IH]; intros Hall; cbn [scan].
  - reflexivity.
  - rewrite (Hall d) by (left; reflexivity).
    rewrite IH by (intros; apply Hall; right; assumption).
    reflexivity.
Qed.

Lemma scan_first_failure (ba : backend) (before after : list Digest)
    (d : Digest) (err : error) :
  (forall d', In d' before ->
     failure (verdict url_Parse http_StatusText ba d') = None) ->
  failure (verdict url_Parse http_StatusText ba d) = Some err ->
  scan url_Parse http_StatusText ba (before ++ d :: after)
  = (before ++ [d], Some err).
Proof.
  induction before as [|a before IH]; intros Hall Herr; cbn [app scan].
  - rewrite Herr. reflexivity.
  - rewrite (Hall a) by (left; reflexivity).
    rewrite IH by (auto; intros; apply Hall; right; assumption).
    reflexivity.
Qed.

Lemma answered_verdict (ba : backend) (d : Digest) :
  answered url_Parse ba d ->
  failure (verdict url_Parse http_StatusText ba d) = None
  /\ isMissing (verdict url_Parse http_StatusText ba d)
     = match head ba d with
       | Ok resp => StatusCode resp =? StatusNotFound
       | Err _ => false
       end.
Proof.
  intros (Hurl & resp & Hhead & Hcode). unfold verdict.
  rewrite Hurl, Hhead.
  destruct Hcode as [E|E]; rewrite E; cbn; auto.
Qed.

Lemma HEAD_FindMissing_run (ba : backend) (digests : list Digest) :
  safeHeads ->
  FindMissing url_Parse http_StatusText digests ba
  = (match snd (scan url_Parse http_StatusText ba digests) with
     | Some err => Err err
     | None =>
         Ok (filter (fun d => isMissing (verdict url_Parse http_StatusText ba d))
               digests)
     end,
     recordAll
       (flat_map (probe url_Parse ba)
          (fst (scan url_Parse http_StatusText ba digests)))
       ba).
Proof.
  intros Hsafe. unfold FindMissing.
  replace ba with (recordAll [] ba) at 1
    by (destruct ba; unfold recordAll; cbn; rewrite app_nil_r; reflexivity).
  rewrite (HEAD_loop_run ba digests Hsafe). reflexivity.
Qed.

(** C7.  Every request of the backend goes to
    [<address>/<prefix>/<hash>].  [Get] sends a GET there and turns status
    404 into the buffer of a NotFound error, status 200 into a buffer over
    the response body, any other status into the buffer of an error, and a
    transport error into the buffer of that error.  With HEAD requests that
    leave the cache as it is, [FindMissing] sends HEAD requests only; when
    every one is answered 200 or 404 it returns the digests answered 404,
    and an answer with another status fails the call.  [Put] sends a PUT
    whose content length is the size of the buffer. *)
Theorem remote_protocol (ba : backend) :
  (forall digest,
      blobURL ba digest
      = (address ba ++ "/" ++ prefix ba ++ "/" ++ hashString digest)%string)
  /\ (forall digest,
        url_Parse (blobURL ba digest) = None ->
        let req := mkRequest MethodGet (blobURL ba digest) None 0 in
        let resp := fst (client_Do req (client ba)) in
        (exists closes,
            calls (snd (Get (F := F) url_Parse http_StatusText digest ba))
            = calls ba ++ Do req resp :: closes)
        /\ fst (Get (F := F) url_Parse http_StatusText digest ba)
           = match resp with
             | Err err => NewBufferFromError err
             | Ok resp =>
                 if StatusCode resp =? 404 then
                   NewBufferFromError
                     (StatusError NotFound (blobURL ba digest))
                 else if StatusCode resp =? 200 then
                   NewBufferFromReader (storageType ba) digest (Body resp)
                     Irreparable
                 else
                   NewBufferFromError
                     (convertHTTPUnexpectedStatus http_StatusText resp)
             end)
  /\ (safeHeads ->
      forall digests,
        (exists probed,
            calls (snd (FindMissing url_Parse http_StatusText digests ba))
            = calls ba ++ flat_map (probe url_Parse ba) probed)
        /\ ((forall d, In d digests -> answered url_Parse ba d) ->
            fst (FindMissing url_Parse http_StatusText digests ba)
            = Ok (filter
                    (fun d => match head ba d with
                              | Ok resp => StatusCode resp =? 404
                              | Err _ => false
                              end)
                    digests))
        /\ (forall before d after resp,
              digests = before ++ d :: after ->
              (forall d', In d' before -> answered url_Parse ba d') ->
              url_Parse (blobURL ba d) = None ->
              head ba d = Ok resp ->
              StatusCode resp <> 404 -> StatusCode resp <> 200 ->
              fst (FindMissing url_Parse http_StatusText digests ba)
              = Err (convertHTTPUnexpectedStatus http_StatusText resp)))
  /\ (forall digest b sizeBytes,
        GetSizeBytes b = (sizeBytes, None) ->
        url_Parse (blobURL ba digest) = None ->
        let req := mkRequest MethodPut (blobURL ba digest) (Some b) sizeBytes in
        calls (snd (Put url_Parse GetSizeBytes digest b ba))
        = calls ba ++ [Do req (fst (client_Do req (client ba)))]).
Proof.
  split; [reflexivity|]. split; [|split].
  - intros digest Hurl req resp. subst req resp.
    unfold Get, bind, ctxhttp_Get, http_NewRequest, ctxhttp_Do.
    change (Sprintf_url (address ba) (prefix ba) (hashString digest))
      with (blobURL ba digest).
    rewrite Hurl.
    destruct (client_Do _ (client ba)) as [[resp|err] c]; cbn [fst ret].
    + change StatusNotFound with 404. change StatusOK with 200.
      destruct (StatusCode resp =? 404); [|destruct (StatusCode resp =? 200)];
        cbn; (split; [eexists; rewrite <- ?app_assoc; reflexivity|reflexivity]).
    + cbn. split; [exists []; reflexivity|reflexivity].
  - intros Hsafe digests.
    rewrite (HEAD_FindMissing_run ba digests Hsafe). cbn [fst snd].
    split; [|split].
    + eexists. reflexivity.
    + intros Hall.
      rewrite scan_all_answered by (intros d I; apply answered_verdict; auto).
      cbn [snd]. f_equal. apply filter_ext_in.
      intros d I. apply answered_verdict; auto.
    + intros before d after resp -> Hall Hurl Hhead N404 N200.
      rewrite (scan_first_failure ba before after d
                 (convertHTTPUnexpectedStatus http_StatusText resp)).
      * reflexivity.
      * intros d' I. apply answered_verdict; auto.
      * unfold verdict. rewrite Hurl, Hhead.
        destruct (Z.eqb_spec (StatusCode resp) StatusNotFound) as [E|_];
          [contradiction|].
        destruct (Z.eqb_spec (StatusCode resp) StatusOK) as [E|_];
          [contradiction|].
        reflexivity.
  - intros digest b sizeBytes Hsize Hurl req. subst req.
    unfold Put. rewrite Hsize.
    change (Sprintf_url (address ba) (prefix ba) (hashString digest))
      with (blobURL ba digest).
    unfold http_NewRequest. rewrite Hurl.
    unfold bind, ctxhttp_Do. cbn [RequestMethod URL RequestBody].
    destruct (client_Do _ (client ba)) as [[resp|err] c]; reflexivity.
Qed.

(** C10.  [Put] returns an error in three cases only: the size of the
    buffer cannot be had (the buffer is then discarded and no request is
    made), the request cannot be built, or the client returns an error
    instead of a response.  Whenever the client returns a response, with
    whatever status code, [Put] returns no error. *)
Theorem Put_ignores_status (ba : backend) (digest : Digest) (b : Buf) :
  (forall sizeBytes err,
      GetSizeBytes b = (sizeBytes, Some err) ->
      Put url_Parse GetSizeBytes digest b ba = (Some err, record Discard ba))
  /\ (forall sizeBytes,
        GetSizeBytes b = (sizeBytes, None) ->
        match url_Parse (blobURL ba digest) with
        | Some err =>
            Put url_Parse GetSizeBytes digest b ba = (Some err, record Close ba)
        | None =>
            let req :=
              mkRequest MethodPut (blobURL ba digest) (Some b) sizeBytes in
            match fst (client_Do req (client ba)) with
            | Err err => fst (Put url_Parse GetSizeBytes digest b ba) = Some err
            | Ok resp => fst (Put url_Parse GetSizeBytes digest b ba) = None
            end
        end).
Proof.
  split.
  - intros sizeBytes err Hsize. unfold Put. rewrite Hsize. reflexivity.
  - intros sizeBytes Hsize. unfold Put. rewrite Hsize.
    change (Sprintf_url (address ba) (prefix ba) (hashString digest))
      with (blobURL ba digest).
    unfold http_NewRequest.
    destruct (url_Parse (blobURL ba digest)) as [err|]; [reflexivity|].
    unfold bind, ctxhttp_Do. cbn [RequestMethod URL RequestBody].
    destruct (client_Do _ (client ba)) as [[resp|err] c]; reflexivity.
Qed.

(** *** Further properties of the three methods *)

(** What the loop of [FindMissing] does with any client. *)
Lemma HEAD_loop_any (digests : list Digest) :
  forall (missing : list Digest) (ba : backend),
    let '(result, ba') :=
      FindMissing_loop url_Parse http_StatusText digests missing ba in
    address ba' = address ba
    /\ prefix ba' = prefix ba
    /\ exists es,
        calls ba' = calls ba ++ es
        /\ Forall2 (fun e d => exists resp, e = Do (headRequest ba d) resp)
             es (firstn (List.length es) digests)
        /\ (List.length es <= List.length digests)%nat
        /\ match result with
           | Ok found =>
               exists more, found = missing ++ more /\ subseq more digests
           | Err _ => True
           end.
Proof.
  induction digests as [|digest digests IH]; intros missing ba.
  - cbn. repeat split. exists []. rewrite !app_nil_r.
    repeat split; auto. exists []. rewrite app_nil_r. split; constructor.
  - cbn [FindMissing_loop]. unfold bind, ctxhttp_Head, http_NewRequest.
    change (Sprintf_url (address ba) (prefix ba) (hashString digest))
      with (blobURL ba digest).
    destruct (url_Parse (blobURL ba digest)) as [err|].
    { cbn. repeat split. exists []. rewrite app_nil_r.
      repeat split; auto. cbn. lia. }
    unfold ctxhttp_Do.
    destruct (client_Do _ (client ba)) as [resp c].
    set (ba1 := record _ _).
    assert (A1 : address ba1 = address ba) by reflexivity.
    assert (P1 : prefix ba1 = prefix ba) by reflexivity.
    assert (C1 : calls ba1
                 = calls ba ++ [Do (headRequest ba digest) resp])
      by reflexivity.
    assert (HR : forall d, headRequest ba1 d = headRequest ba d)
      by reflexivity.
    assert (Step : forall (result : Result (list Digest)) (ba' : backend)
                     (es : list (Event Buf RBody)),
              address ba' = address ba1 -> prefix ba' = prefix ba1 ->
              calls ba' = calls ba1 ++ es ->
              Forall2 (fun e d => exists resp, e = Do (headRequest ba1 d) resp)
                es (firstn (List.length es) digests) ->
              (List.length es <= List.length digests)%nat ->
              match result with
              | Ok found =>
                  exists more,
                    found = missing ++ more /\ subseq more (digest :: digests)
              | Err _ => True
              end ->
              address ba' = address ba
              /\ prefix ba' = prefix ba
              /\ exists es0,
                  calls ba' = calls ba ++ es0
                  /\ Forall2
                       (fun e d => exists resp, e = Do (headRequest ba d) resp)
                       es0 (firstn (List.length es0) (digest :: digests))
                  /\ (List.length es0 <= List.length (digest :: digests))%nat
                  /\ match result with
                     | Ok found =>
                         exists more,
                           found = missing ++ more
                           /\ subseq more (digest :: digests)
                     | Err _ => True
                     end).
    { intros result ba' es A P HC HF N Res.
      split; [congruence|]. split; [congruence|].
      exists (Do (headRequest ba digest) resp :: es).
      split; [rewrite HC, C1, <- app_assoc; reflexivity|].
      split; [|split; [cbn; lia | exact Res]].
      cbn [List.length firstn]. constructor; [eexists; reflexivity|].
      exact HF. }
    destruct resp as [resp|err].
    2:{ cbn [ret].
        apply (Step (Err err) ba1 []);
          [reflexivity | reflexivity | rewrite app_nil_r; reflexivity
          | constructor | cbn; lia | exact I]. }
    destruct (StatusCode resp =? StatusNotFound).
    + specialize (IH (missing ++ [digest]) ba1).
      destruct (FindMissing_loop _ _ digests (missing ++ [digest]) ba1)
        as [result ba'].
      destruct IH as (A & P & es & HC & HF & N & Res).
      apply (Step result ba' es); [exact A | exact P | exact HC | exact HF
                                  | exact N |].
      destruct result as [found|e]; [|exact I].
      destruct Res as (more & -> & Sub).
      exists (digest :: more). split.
      * rewrite <- app_assoc. reflexivity.
      * apply subseq_keep. exact Sub.
    + destruct (StatusCode resp =? StatusOK).
      * specialize (IH missing ba1).
        destruct (FindMissing_loop _ _ digests missing ba1) as [result ba'].
        destruct IH as (A & P & es & HC & HF & N & Res).
        apply (Step result ba' es); [exact A | exact P | exact HC | exact HF
                                    | exact N |].
        destruct result as [found|e]; [|exact I].
        destruct Res as (more & -> & Sub).
        exists more. split; [reflexivity|]. apply subseq_skip. exact Sub.
      * cbn [ret].
        apply (Step (Err (convertHTTPUnexpectedStatus http_StatusText resp))
                 ba1 []);
          [reflexivity | reflexivity | rewrite app_nil_r; reflexivity
          | constructor | cbn; lia | exact I].
Qed.

(** X6.  For any HTTP client, the digests [FindMissing] returns are digests
    of its input, in the order of the input.  The calls it makes are HEAD
    requests without a body, one for each digest of the input in turn,
    from the first one up to the one at which it returns; it closes no
    response body. *)
Theorem FindMissing_probes_in_order (digests : list Digest) (ba : backend) :
  match fst (FindMissing url_Parse http_StatusText digests ba) with
  | Ok missing => subseq missing digests
  | Err _ => True
  end
  /\ exists es,
      calls (snd (FindMissing url_Parse http_StatusText digests ba))
      = calls ba ++ es
      /\ Forall2
           (fun e d =>
              exists resp,
                e = Do (mkRequest MethodHead (blobURL ba d) None 0) resp)
           es (firstn (List.length es) digests)
      /\ (List.length es <= List.length digests)%nat.
Proof.
  unfold FindMissing.
  pose proof (HEAD_loop_any digests [] ba) as L.
  destruct (FindMissing_loop _ _ digests [] ba) as [result ba'].
  destruct L as (_ & _ & es & HC & HF & N & Res).
  cbn [fst snd]. split.
  - destruct result as [found|e]; [|exact I].
    destruct Res as (more & -> & Sub). exact Sub.
  - exists es. auto.
Qed.

(** X7.  [Get] makes at most one request, a GET without a body for the
    URL of the blob, and none when that URL does not parse.  It closes the
    body of the response exactly when the status is not 200; with status
    200 the body goes into the buffer, still open. *)
Theorem Get_closes_body_unless_OK (digest : Digest) (ba : backend) :
  calls (snd (Get (F := F) url_Parse http_StatusText digest ba))
  = calls ba
    ++ match url_Parse (blobURL ba digest) with
       | Some _ => []
       | None =>
           let req := mkRequest MethodGet (blobURL ba digest) None 0 in
           let resp := fst (client_Do req (client ba)) in
           Do req resp
           :: match resp with
              | Ok resp =>
                  if StatusCode resp =? 200 then []
                  else [BodyClose (Body resp)]
              | Err _ => []
              end
       end.
Proof.
  unfold Get, bind, ctxhttp_Get, http_NewRequest, ctxhttp_Do.
  change (Sprintf_url (address ba) (prefix ba) (hashString digest))
    with (blobURL ba digest).
  destruct (url_Parse (blobURL ba digest)) as [err|].
  { cbn. rewrite app_nil_r. reflexivity. }
  cbv zeta.
  destruct (client_Do _ (client ba)) as [[resp|err] c]; cbn [fst ret snd].
  - change StatusNotFound with 404. change StatusOK with 200.
    destruct (Z.eqb_spec (StatusCode resp) 404) as [E|N].
    + rewrite E. cbn. rewrite <- app_assoc. reflexivity.
    + destruct (StatusCode resp =? 200); cbn;
        rewrite <- ?app_assoc; reflexivity.
  - reflexivity.
Qed.

End Backend.

(** *** The model of the remote cache *)

Lemma safeHeads_model : safeHeads (C := Cache) (Buf := list byte).
Proof.
  intros url c. cbn. destruct (Cache_find url (blobs c)); reflexivity.
Qed.

Lemma remote_protocol_witness :
  fst (Get (F := Empty_set) url_Parse_model http_StatusText_model
         sampleDigest storedBackend)
  = NewBufferFromReader CASStorageType sampleDigest sampleBlob Irreparable
  /\ fst (Get (F := Empty_set) url_Parse_model http_StatusText_model
            sampleDigest emptyBackend)
     = NewBufferFromError (StatusError NotFound sampleURL)
  /\ fst (FindMissing url_Parse_model http_StatusText_model
            [sampleDigest; otherDigest] storedBackend)
     = Ok [otherDigest]
  /\ calls (snd (Put url_Parse_model GetSizeBytes_model sampleDigest sampleBlob
                   emptyBackend))
     = [Do (mkRequest MethodPut sampleURL (Some sampleBlob) 5)
          (Ok (mkResponse 200 []))].
Proof.
  destruct (remote_protocol (F := Empty_set) url_Parse_model
              http_StatusText_model GetSizeBytes_model storedBackend)
    as (_ & HGet & HFind & _).
  destruct (remote_protocol (F := Empty_set) url_Parse_model
              http_StatusText_model GetSizeBytes_model emptyBackend)
    as (_ & HGet0 & _ & HPut).
  split; [|split; [|split]].
  - destruct (HGet sampleDigest eq_refl) as [_ E]. rewrite E. reflexivity.
  - destruct (HGet0 sampleDigest eq_refl) as [_ E]. rewrite E. reflexivity.
  - destruct (HFind safeHeads_model [sampleDigest; otherDigest])
      as (_ & E & _).
    rewrite E; [reflexivity|].
    intros d [<-|[<-|[]]]; (split; [reflexivity|]);
      eexists; (split; [reflexivity|]); cbn; auto.
  - rewrite (HPut sampleDigest sampleBlob 5 eq_refl eq_refl). reflexivity.
Defined.

Lemma Put_ignores_status_witness :
  fst (client_Do (mkRequest MethodPut sampleURL (Some sampleBlob) 5)
         (client readOnlyBackend))
  = Ok (mkResponse 403 [])
  /\ fst (Put url_Parse_model GetSizeBytes_model sampleDigest sampleBlob
            readOnlyBackend)
     = None.
Proof.
  split; [reflexivity|].
  destruct (Put_ignores_status url_Parse_model GetSizeBytes_model
              readOnlyBackend sampleDigest sampleBlob) as [_ H].
  specialize (H 5 eq_refl). exact H.
Defined.

End RemoteFacts.
(** ** Content Addressable Storage on top of a BlobAccess *)
Module CASFacts.
Import CAS.

Lemma take_length_le {A : Type} (l : list A) :
  forall n, 0 <= n -> len (take n l) <= n.
Proof.
  unfold len. induction l as [|x l IH]; intros n Hn; cbn [take].
  - cbn. lia.
  - destruct (Z.leb_spec n 0); cbn [List.length].
    + lia.
    + specialize (IH (n - 1)). rewrite Nat2Z.inj_succ. lia.
Qed.

Lemma take_length {A : Type} (l : list A) :
  forall n, 0 <= n <= len l -> len (take n l) = n.
Proof.
  unfold len. induction l as [|x l IH]; intros n Hn; cbn [take].
  - cbn in *. lia.
  - destruct (Z.leb_spec n 0); cbn [List.length] in *.
    + lia.
    + rewrite Nat2Z.inj_succ in *. rewrite IH; lia.
Qed.

Lemma take_app_exact {A : Type} (l more : list A) :
  take (len l) (l ++ more) = l.
Proof.
  unfold len. induction l as [|x l IH].
  - cbn. destruct more; reflexivity.
  - cbn [app take List.length]. rewrite Nat2Z.inj_succ.
    destruct (Z.leb_spec (Z.succ (Z.of_nat (List.length l))) 0); [lia|].
    replace (Z.succ (Z.of_nat (List.length l)) - 1)
      with (Z.of_nat (List.length l)) by lia.
    rewrite IH. reflexivity.
Qed.

Lemma take_all {A : Type} (l : list A) :
  forall n, len l <= n -> take n l = l.
Proof.
  unfold len. induction l as [|x l IH]; intros n Hn; cbn [take];
    [reflexivity|].
  cbn [List.length] in Hn. rewrite Nat2Z.inj_succ in Hn.
  destruct (Z.leb_spec n 0); [lia|]. rewrite IH by lia. reflexivity.
Qed.



Lemma drop_0 {A : Type} (l : list A) : drop 0 l = l.
Proof. destruct l; reflexivity. Qed.

Lemma len_nonneg {A : Type} (l : list A) : 0 <= len l.
Proof. unfold len. lia. Qed.

Section Storage.

Context {D W FR B GBuf F : Type}.
Context `{Directory D W FR} `{BlobAccess B GBuf FR F D}.
Variable Buffer_IntoWriter : GBuf -> W -> D -> option error * D.
Variable DigestGenerator_Sum : Digest -> list byte -> Digest.

Abbreviation world := (World D FR B F).

(** C8.  For a directory whose [Remove] leaves no entry of the name and
    whose [Close] changes no entry: when [GetFile] has created the file
    and streaming the blob into it fails, [GetFile] calls [Remove] for the
    same name, closes the file and returns the error of the streaming; the
    directory then has no entry of that name. *)
Theorem GetFile_removes_on_failure
    (digest : Digest) (name : string) (isExecutable : bool)
    (s s3 : world) (w : W) (err : error) :
  removeRemoves -> closeKeepsEntries ->
  afterStreaming Buffer_IntoWriter digest name isExecutable s
  = Some (w, Some err, s3) ->
  let '(result, s') := GetFile Buffer_IntoWriter digest name isExecutable s in
  result = Some err
  /\ directory s'
     = snd (writer_Close w (snd (directory_Remove name (directory s3))))
  /\ calls s'
     = calls s3 ++ [Remove name (fst (directory_Remove name (directory s3)));
                    WriterClose]
  /\ directory_contains (directory s') name = false.
Proof.
  intros Hrm Hcl E. unfold afterStreaming in E. unfold GetFile.
  unfold bind at 1.
  destruct (onDirectory (directory_OpenAppend name _) _ s) as [[w0|e] s1];
    [|discriminate].
  unfold bind at 1.
  destruct (cas_blobAccess_Get digest s1) as [b s2].
  unfold bind at 1.
  destruct (onDirectory (Buffer_IntoWriter b w0) IntoWriter s2) as [e s3'].
  injection E as -> -> ->.
  unfold bind, onDirectory, ret. cbn [directory record].
  destruct (directory_Remove name (directory s3)) as [rerr d4] eqn:R.
  cbn [directory record blobAccess calls fst snd].
  destruct (writer_Close w d4) as [cerr d5] eqn:Cl.
  cbn [directory record calls fst snd].
  repeat split.
  - rewrite <- app_assoc. reflexivity.
  - pose proof (Hcl w d4 name) as K. rewrite Cl in K. cbn in K. rewrite K.
    pose proof (Hrm name (directory s3)) as K'. rewrite R in K'. exact K'.
Qed.

Lemma PutFile_run (env : world -> world) (name : string)
    (parentDigest : Digest) (s s1 : world) (file : FR) (data : list byte) :
  afterDigest name s = Some (file, data, s1) ->
  PutFile DigestGenerator_Sum env name parentDigest s
  = let digest := DigestGenerator_Sum parentDigest data in
    let b := NewCASBufferFromReader digest
               (newSectionReadCloser file 0 (len data)) UserProvided in
    let '(err, ba) :=
      blobAccess_Put digest b (directory (env s1)) (blobAccess (env s1)) in
    (match err with Some e => Err e | None => Ok digest end,
     record (BlobPut digest b err)
       (mkWorld (directory (env s1)) ba (calls (env s1)))).
Proof.
  intros E. unfold afterDigest in E. unfold PutFile.
  unfold bind at 1.
  destruct (onDirectory (directory_OpenRead name) _ s) as [[f|e] s0];
    [|discriminate].
  unfold bind at 1.
  destruct (io_Copy_section f s0) as [[bytes|e] s0']; [|discriminate].
  injection E as -> -> ->.
  unfold bind, concurrently, cas_blobAccess_Put, ret. cbv zeta.
  destruct (blobAccess_Put _ _ (directory (env s1)) (blobAccess (env s1)))
    as [[e|] ba]; reflexivity.
Qed.

(** C9.  For a digest generator whose digest carries the number of bytes
    written to it as its size: once [PutFile] has hashed [data], the bytes
    of its first pass over the file, it calls [Put] with the digest of
    [data] and a buffer over the section of the file that starts at 0 and
    is [len data] bytes long, and returns that digest when [Put]
    succeeds.  Read on a file that holds [content] at the time of the
    upload, this buffer yields the first [len data] bytes of [content]:
    as many bytes as the size of the digest when the file has not become
    shorter, and [data] itself when the file has only grown. *)
Theorem PutFile_uploads_hashed_prefix
    (env : world -> world) (name : string) (parentDigest : Digest)
    (s s1 : world) (file : FR) (data : list byte) :
  (forall parent bytes,
      sizeBytes (DigestGenerator_Sum parent bytes) = len bytes) ->
  afterDigest name s = Some (file, data, s1) ->
  let digest := DigestGenerator_Sum parentDigest data in
  let b := NewCASBufferFromReader digest
             (newSectionReadCloser file 0 (len data)) UserProvided in
  (exists err,
      calls (snd (PutFile DigestGenerator_Sum env name parentDigest s))
      = calls (env s1) ++ [BlobPut digest b err]
      /\ fst (PutFile DigestGenerator_Sum env name parentDigest s)
         = match err with Some e => Err e | None => Ok digest end)
  /\ forall content,
      file_contents file (directory (env s1)) = Ok content ->
      uploaded b (directory (env s1)) = Ok (take (len data) content)
      /\ (len data <= len content ->
          len (take (len data) content) = sizeBytes digest)
      /\ (forall more,
            content = data ++ more ->
            uploaded b (directory (env s1)) = Ok data).
Proof.
  intros Hsum E digest b.
  assert (Hlen : len data <= MaxInt64).
  { unfold afterDigest in E.
    destruct (onDirectory (directory_OpenRead name) _ s) as [[f|e] s0];
      [|discriminate].
    unfold io_Copy_section in E.
    destruct (file_contents f (directory s0)) as [content|e]; [|discriminate].
    injection E as _ <- _.
    unfold SectionReader_bytes. apply take_length_le.
    unfold MaxInt64. lia. }
  assert (Hlimit : wrap64 (0 + len data) = len data).
  { apply wrap64_id. pose proof (len_nonneg data). unfold MaxInt64 in *. lia. }
  split.
  - rewrite (PutFile_run env name parentDigest s s1 file data E).
    cbv zeta. fold digest. fold b.
    destruct (blobAccess_Put digest b (directory (env s1)) (blobAccess (env s1)))
      as [err ba].
    exists err. split; reflexivity.
  - intros content Hcontent.
    assert (U : uploaded b (directory (env s1)) = Ok (take (len data) content)).
    { unfold uploaded, b, newSectionReadCloser, io_NewSectionReader.
      cbn [SectionReader_of sr_r]. rewrite Hcontent.
      unfold SectionReader_bytes. cbn [sr_limit sr_off].
      rewrite Hlimit, drop_0, Z.sub_0_r. reflexivity. }
    split; [exact U|]. split.
    + intros Hle. unfold digest. rewrite Hsum.
      apply take_length. pose proof (len_nonneg data). lia.
    + intros more ->. rewrite U, take_app_exact. reflexivity.
Qed.

(** *** Further properties *)

Variable DigestGenerator_Write : Digest -> list byte -> option error.
Variable Buffer_ToByteSlice : GBuf -> Z -> Result (list byte).
Variable maximumMessageSizeBytes : Z.

(** X12.  [GetFile] removes a file only if it created it.  When the file
    cannot be created (it exists, say), [GetFile] returns that error and
    makes no other call: the blob is not fetched and nothing is removed.
    When streaming succeeds it returns no error, closes the file and
    removes nothing.  The file is created exclusively, with mode 0555 when
    executable and 0444 otherwise. *)
Theorem GetFile_removes_only_its_own
    (digest : Digest) (name : string) (isExecutable : bool) (s : world) :
  let mode := if isExecutable then 365 else 292 in
  let opened := directory_OpenAppend name (CreateExcl mode) (directory s) in
  (forall err,
      fst opened = Err err ->
      GetFile Buffer_IntoWriter digest name isExecutable s
      = (Some err,
         mkWorld (snd opened) (blobAccess s)
           (calls s ++ [OpenAppend name (CreateExcl mode)])))
  /\ (forall w s3,
        afterStreaming Buffer_IntoWriter digest name isExecutable s
        = Some (w, None, s3) ->
        let '(result, s') :=
          GetFile Buffer_IntoWriter digest name isExecutable s in
        result = None
        /\ directory s' = snd (writer_Close w (directory s3))
        /\ exists es,
            calls s' = calls s ++ OpenAppend name (CreateExcl mode) :: es
            /\ noRemove es = true).
Proof.
  intros mode opened. split.
  - intros err E. unfold GetFile, bind, onDirectory. fold mode. fold opened.
    destruct opened as [res d]. cbn in E. subst res. reflexivity.
  - intros w s3 E. unfold afterStreaming in E. unfold GetFile.
    fold mode in E |- *.
    unfold bind at 1. unfold onDirectory at 1. unfold onDirectory at 1 in E.
    fold opened in E |- *.
    destruct opened as [[w0|e] d1]; [|discriminate].
    unfold bind at 1. unfold cas_blobAccess_Get in *.
    cbn [blobAccess directory record calls] in *.
    destruct (blobAccess_Get digest (blobAccess s)) as [b ba].
    unfold bind at 1. unfold onDirectory at 1. unfold onDirectory at 1 in E.
    cbn [blobAccess directory record calls] in *.
    destruct (Buffer_IntoWriter b w0 d1) as [e d2].
    injection E as -> -> <-.
    unfold bind, onDirectory, ret. cbn [directory record blobAccess calls].
    destruct (writer_Close w d2) as [cerr d3].
    cbn [directory record calls]. repeat split.
    eexists. split; [rewrite <- !app_assoc; reflexivity|reflexivity].
Qed.


(** X14.  When the file has become shorter than it was during the first
    pass, the buffer that [PutFile] uploads yields the whole file as it is
    now, which is fewer bytes than the size of the digest it is uploaded
    under. *)
Theorem PutFile_truncated_file_is_short
    (env : world -> world) (name : string) (parentDigest : Digest)
    (s s1 : world) (file : FR) (data content : list byte) :
  (forall parent bytes,
      sizeBytes (DigestGenerator_Sum parent bytes) = len bytes) ->
  afterDigest name s = Some (file, data, s1) ->
  file_contents file (directory (env s1)) = Ok content ->
  len content < len data ->
  let digest := DigestGenerator_Sum parentDigest data in
  let b := NewCASBufferFromReader digest
             (newSectionReadCloser file 0 (len data)) UserProvided in
  (exists err,
      calls (snd (PutFile DigestGenerator_Sum env name parentDigest s))
      = calls (env s1) ++ [BlobPut digest b err])
  /\ uploaded b (directory (env s1)) = Ok content
  /\ len content < sizeBytes digest.
Proof.
  intros Hsum E Hcontent Hshort digest b.
  assert (Hlen : len data <= MaxInt64).
  { unfold afterDigest in E.
    destruct (onDirectory (directory_OpenRead name) _ s) as [[f|e] s0];
      [|discriminate].
    unfold io_Copy_section in E.
    destruct (file_contents f (directory s0)) as [c|e]; [|discriminate].
    injection E as _ <- _.
    unfold SectionReader_bytes. apply take_length_le.
    unfold MaxInt64. lia. }
  split; [|split].
  - rewrite (PutFile_run env name parentDigest s s1 file data E).
    cbv zeta. fold digest. fold b.
    destruct (blobAccess_Put digest b (directory (env s1)) (blobAccess (env s1)))
      as [err ba].
    exists err. reflexivity.
  - unfold uploaded, b, newSectionReadCloser, io_NewSectionReader.
    cbn [SectionReader_of sr_r]. rewrite Hcontent.
    unfold SectionReader_bytes. cbn [sr_limit sr_off].
    rewrite wrap64_id
      by (pose proof (len_nonneg data); unfold MaxInt64 in *; lia).
    rewrite drop_0, Z.add_0_l, Z.sub_0_r.
    f_equal. apply take_all. lia.
  - unfold digest. rewrite Hsum. exact Hshort.
Qed.

(** X15.  [putBlob], and so [PutLog]: when the digest generator takes the
    bytes, it calls [Put] once, with the digest of the bytes and a buffer
    that holds exactly these bytes, and returns that digest when [Put]
    succeeds and the error of [Put] otherwise; when the digest generator
    fails, it returns that error and uploads nothing. *)
Theorem PutLog_uploads_the_log (log : list byte) (parentDigest : Digest)
    (s : world) :
  match DigestGenerator_Write parentDigest log with
  | Some err =>
      PutLog DigestGenerator_Sum DigestGenerator_Write log parentDigest s
      = (Err err, s)
  | None =>
      let digest := DigestGenerator_Sum parentDigest log in
      let b := NewValidatedBufferFromByteSlice log in
      let put := blobAccess_Put digest b (directory s) (blobAccess s) in
      PutLog DigestGenerator_Sum DigestGenerator_Write log parentDigest s
      = (match fst put with Some err => Err err | None => Ok digest end,
         mkWorld (directory s) (snd put)
           (calls s ++ [BlobPut digest b (fst put)]))
      /\ forall d, uploaded b d = Ok log
  end.
Proof.
  unfold PutLog, putBlob.
  destruct (DigestGenerator_Write parentDigest log) as [err|]; [reflexivity|].
  cbv zeta. split; [|reflexivity].
  unfold bind, cas_blobAccess_Put, ret.
  destruct (blobAccess_Put _ _ (directory s) (blobAccess s)) as [[e|] ba];
    reflexivity.
Qed.

(** X16.  [PutTree] then [GetTree].  With [proto.Unmarshal] inverse to
    [proto.Marshal] and a blob access that gives back the byte slices it
    accepted: when [PutTree] returns a digest for a tree whose encoding
    fits the maximum message size, [GetTree] of that digest in the state
    [PutTree] leaves returns the tree. *)
Theorem GetTree_after_PutTree {Tree : Type}
    (Marshal_Tree : Tree -> Result (list byte))
    (Unmarshal_Tree : list byte -> Result Tree)
    (tree : Tree) (data : list byte) (parentDigest digest : Digest)
    (s : world) :
  (forall m bytes, Marshal_Tree m = Ok bytes -> Unmarshal_Tree bytes = Ok m) ->
  storesByteSlices Buffer_ToByteSlice maximumMessageSizeBytes ->
  Marshal_Tree tree = Ok data ->
  len data <= maximumMessageSizeBytes ->
  fst (PutTree DigestGenerator_Sum DigestGenerator_Write Marshal_Tree
         tree parentDigest s) = Ok digest ->
  fst (GetTree Buffer_ToByteSlice maximumMessageSizeBytes Unmarshal_Tree digest
         (snd (PutTree DigestGenerator_Sum DigestGenerator_Write Marshal_Tree
                 tree parentDigest s)))
  = Ok tree.
Proof.
  intros Hproto Hstore Hdata Hfits.
  unfold PutTree, putMessage, putBlob. rewrite Hdata.
  destruct (DigestGenerator_Write parentDigest data) as [e|]; [discriminate|].
  cbv zeta. unfold bind, cas_blobAccess_Put.
  pose proof (Hstore (DigestGenerator_Sum parentDigest data) data
                (directory s) (blobAccess s)) as L.
  destruct (blobAccess_Put _ _ (directory s) (blobAccess s)) as [[e|] ba];
    [discriminate|].
  cbn [fst snd ret] in *. intros E. injection E as <-.
  specialize (L eq_refl Hfits).
  unfold GetTree, getMessage, bind, cas_blobAccess_Get, ret.
  cbn [fst snd blobAccess record directory].
  destruct (blobAccess_Get _ ba) as [b ba'].
  cbn [fst] in L. rewrite L. cbn [fst].
  apply Hproto. exact Hdata.
Qed.

End Storage.


(** *** The model of the directory *)

Lemma Files_find_remove (name : string) (d : Files) :
  Files_find name (Files_remove name d) = None.
Proof.
  induction d as [|[n file] d IH]; cbn [Files_remove Files_find].
  - reflexivity.
  - destruct (String.eqb n name) eqn:E; [exact IH|].
    cbn [Files_find]. rewrite E. exact IH.
Qed.

Lemma removeRemoves_model : removeRemoves (D := Files).
Proof.
  intros name d. cbn. unfold exists_.
  destruct (Files_find name d) eqn:E; cbn.
  - rewrite Files_find_remove. reflexivity.
  - rewrite E. reflexivity.
Qed.

Lemma closeKeepsEntries_model : closeKeepsEntries (D := Files).
Proof. intros w d name. reflexivity. Qed.

Lemma GetFile_removes_on_failure_witness :
  let '(result, s') :=
    GetFile IntoWriter_model sampleDigest "hello.txt" false emptyWorld in
  result = Some (StatusError NotFound "Blob not found")
  /\ directory_contains (directory s') "hello.txt" = false.
Proof.
  pose proof (GetFile_removes_on_failure IntoWriter_model
                sampleDigest "hello.txt" false emptyWorld
                (mkWorld [("hello.txt", (292, []))] []
                   [OpenAppend "hello.txt" (CreateExcl 292);
                    BlobGet sampleDigest;
                    IntoWriter (Some (StatusError NotFound "Blob not found"))])
                "hello.txt" (StatusError NotFound "Blob not found")
                removeRemoves_model closeKeepsEntries_model eq_refl) as G.
  destruct (GetFile IntoWriter_model sampleDigest "hello.txt" false emptyWorld)
    as [result s'].
  destruct G as (R & _ & _ & Gone). split; [exact R | exact Gone].
Defined.

Lemma PutFile_uploads_hashed_prefix_witness :
  let digest := mkDigest "debian8" "532" 5 in
  fst (PutFile Sum_model moreOutput "stdout" parentDigest logWorld) = Ok digest
  /\ Blobs_find digest
       (blobAccess
          (snd (PutFile Sum_model moreOutput "stdout" parentDigest logWorld)))
     = Some [x68; x65; x6c; x6c; x6f]%byte.
Proof.
  pose proof (PutFile_uploads_hashed_prefix Sum_model moreOutput "stdout"
                parentDigest logWorld
                (mkWorld [("stdout", (420, [x68; x65; x6c; x6c; x6f]%byte))] []
                   [OpenRead "stdout"])
                "stdout" [x68; x65; x6c; x6c; x6f]%byte
                (fun _ _ => eq_refl) eq_refl) as P.
  cbv zeta in P. destruct P as [(err & _ & R) _].
  split; [|vm_compute; reflexivity].
  rewrite R.
  assert (E : fst (PutFile Sum_model moreOutput "stdout" parentDigest logWorld)
              = Ok (mkDigest "debian8" "532" 5)) by (vm_compute; reflexivity).
  rewrite R in E. destruct err; [discriminate E|]. vm_compute. reflexivity.
Defined.

Lemma storesByteSlices_model (max : Z) :
  storesByteSlices (B := Blobs) ToByteSlice_model max.
Proof.
  intros digest data d bs. cbn [blobAccess_Put BlobAccess_model uploaded].
  destruct (len data =? sizeBytes digest); cbn [fst snd]; [|discriminate].
  intros _ Hfits. cbn [blobAccess_Get BlobAccess_model Blobs_find].
  rewrite Digest_eqb_refl. unfold ToByteSlice_model. cbn [fst snd].
  destruct (Z.leb_spec (len data) max); [reflexivity|lia].
Qed.

Lemma GetFile_removes_only_its_own_witness :
  GetFile IntoWriter_model sampleDigest "hello.txt" false takenWorld
  = (Some (ErrorsNew "file exists"),
     mkWorld (directory takenWorld) []
       [OpenAppend "hello.txt" (CreateExcl 292)])
  /\ let s := mkWorld [] [(sampleDigest, [x68; x65; x6c; x6c; x6f]%byte)] []
              : World_model in
     fst (GetFile IntoWriter_model sampleDigest "hello.txt" true s) = None.
Proof.
  split.
  - exact (proj1 (GetFile_removes_only_its_own IntoWriter_model sampleDigest
                    "hello.txt" false takenWorld)
             (ErrorsNew "file exists") eq_refl).
  - intros s.
    pose proof (proj2 (GetFile_removes_only_its_own IntoWriter_model
                         sampleDigest "hello.txt" true s)
                  "hello.txt"
                  (mkWorld
                     [("hello.txt", (365, [x68; x65; x6c; x6c; x6f]%byte))]
                     [(sampleDigest, [x68; x65; x6c; x6c; x6f]%byte)]
                     [OpenAppend "hello.txt" (CreateExcl 365);
                      BlobGet sampleDigest; IntoWriter None])
                  eq_refl) as G.
    destruct (GetFile IntoWriter_model sampleDigest "hello.txt" true s)
      as [result s'].
    exact (proj1 G).
Defined.


Lemma PutFile_truncated_file_is_short_witness :
  let digest := mkDigest "debian8" "532" 5 in
  let b := NewCASBufferFromReader (F := Empty_set) digest
             (newSectionReadCloser "stdout" 0 5) UserProvided in
  uploaded b [("stdout", (420, [x68; x65]%byte))] = Ok [x68; x65]%byte
  /\ 2 < sizeBytes digest.
Proof.
  pose proof (PutFile_truncated_file_is_short Sum_model truncateOutput
                "stdout" parentDigest logWorld
                (mkWorld [("stdout", (420, [x68; x65; x6c; x6c; x6f]%byte))] []
                   [OpenRead "stdout"])
                "stdout" [x68; x65; x6c; x6c; x6f]%byte [x68; x65]%byte
                (fun _ _ => eq_refl) eq_refl eq_refl eq_refl) as P.
  cbv zeta in P. destruct P as (_ & U & Short).
  split; [exact U | exact Short].
Defined.

Lemma GetTree_after_PutTree_witness :
  let tree := [x68; x65; x6c; x6c; x6f]%byte in
  let put := PutTree Sum_model Write_model Marshal_model tree parentDigest
               emptyWorld in
  fst (GetTree ToByteSlice_model 16 Unmarshal_model
         (mkDigest "debian8" "542" 6) (snd put))
  = Ok tree.
Proof.
  intros tree put.
  apply (GetTree_after_PutTree Sum_model Write_model ToByteSlice_model 16
           Marshal_model Unmarshal_model tree (x0a%byte :: tree) parentDigest
           (mkDigest "debian8" "542" 6) emptyWorld).
  - intros m bytes E. injection E as <-. reflexivity.
  - apply storesByteSlices_model.
  - reflexivity.
  - vm_compute. discriminate.
  - vm_compute. reflexivity.
Defined.


Example PutLog_then_GetFile :
  let log := [x68; x65; x6c; x6c; x6f]%byte in
  let put := PutLog Sum_model Write_model log parentDigest emptyWorld in
  fst put = Ok (mkDigest "debian8" "532" 5)
  /\ Blobs_find (mkDigest "debian8" "532" 5) (blobAccess (snd put)) = Some log.
Proof. split; vm_compute; reflexivity. Qed.

Example GetFile_success :
  let blob := [x68; x65; x6c; x6c; x6f]%byte in
  let s := mkWorld [] [(sampleDigest, blob)] [] : World_model in
  fst (GetFile IntoWriter_model sampleDigest "hello.txt" true s) = None
  /\ Files_find "hello.txt"
       (directory (snd (GetFile IntoWriter_model sampleDigest "hello.txt" true s)))
     = Some (365, blob).
Proof. split; vm_compute; reflexivity. Qed.

End CASFacts.
